(** * NASA APOD local exporter: the two Python exporters and their batch run

    A shallow embedding of [src/python/apod_exporter_sync.py] (thread pool)
    and [src/python/apod_local_exporter.py] (asyncio with a semaphore).

    Both files define the same class [ApodExporter] with a per-item worker
    [download_apod] and a batch run [export], and a [main] that turns the
    result of [export] into the process exit status.  The worker is embedded
    as a program over the collaborator calls it makes (HTTP requests, JSON
    decoding, the file write); the batch run executes one such program per
    date on an interleaving machine whose admission gate is the thread pool
    of the first file and the semaphore of the second. *)

From Stdlib Require Import ZArith Lia.
From stdpp Require Import gmap strings pretty list.

(** ** Values exchanged with the outside world *)

Definition bytes := list Byte.byte.

(** Exceptions, all of them subclasses of Python's [Exception] (the only
    thing the workers' [except Exception] clause looks at). *)
Inductive exn : Type :=
| ValueError
| TypeError
| TimeoutError
| URLError
| HTTPError (code : Z)
| ClientError
| JSONDecodeError
| UnicodeDecodeError
| OSError.

(** An HTTP response object: the status the asyncio worker inspects and the
    connection its body is read from. *)
Record response := Response { status : Z; conn : nat }.

(** What a collaborator can hand back.  Python is dynamically typed: an
    object of an unexpected kind makes the operation applied to it raise,
    which is what the [as_*] coercions below do. *)
Inductive value : Type :=
| VNone
| VResponse (r : response)
| VBytes (b : bytes)
| VJson (m : gmap string string)
| VFiles (fs : list (string * N)).

Definition answer : Type := exn + value.

(** The calls that leave the program. *)
Inductive call : Type :=
| Urlopen (url : string) (timeout : Z)   (* urllib.request.urlopen(url, timeout=t) *)
| SessionGet (url : string)              (* session.get(url) *)
| Read (r : response)                    (* response.read() *)
| Json (r : response)                    (* response.json() *)
| WriteFile (name : string) (data : bytes) (* open(name, 'wb') and f.write(data) *)
| Glob (pattern : string).               (* sorted(Path('.').glob(pattern)), with sizes *)

(** Lines written to standard output, one constructor per [print] of the
    sources. *)
Inductive line : Type :=
| Rule                                     (* "=" * 67 *)
| Blank
| Text (s : string)
| ConfigApiKey (pre : string)              (* "  API Key: {key[:10]}..." *)
| ConfigMaxDownloads (n : Z)
| ConfigMaxExports (n : Z)
| ConfigDates (dates : list string)
| Downloading (date : string)
| MetadataHttpFailure (date : string) (st : Z)
| NoImageUrl (date : string)
| ImageHttpFailure (date : string) (st : Z)
| Exported (date file : string) (size : nat)
| ErrorProcessing (date : string) (e : exn)
| ExceptionWhileProcessing (date : string) (e : exn)
| FileEntry (name : string) (size : N)
| NoFilesFound.

(** ** Worker programs *)

(** A worker is a tree of prints and calls ending in a return value or an
    exception that escapes it. *)
Inductive prog (A : Type) : Type :=
| Ret (a : A)
| Raise (e : exn)
| Print (l : line) (k : prog A)
| Call (c : call) (k : answer -> prog A).
Arguments Ret {A} a.
Arguments Raise {A} e.
Arguments Print {A} l k.
Arguments Call {A} c k.

Fixpoint bind {A B} (p : prog A) (f : A -> prog B) : prog B :=
  match p with
  | Ret a => f a
  | Raise e => Raise e
  | Print l k => Print l (bind k f)
  | Call c k => Call c (fun a => bind (k a) f)
  end.

(** [try: p except Exception as e: h e] *)
Fixpoint try_except {A} (p : prog A) (h : exn -> prog A) : prog A :=
  match p with
  | Ret a => Ret a
  | Raise e => h e
  | Print l k => Print l (try_except k h)
  | Call c k => Call c (fun a => try_except (k a) h)
  end.

#[global] Instance prog_ret : MRet prog := fun A a => Ret a.
#[global] Instance prog_bind : MBind prog := fun A B f p => bind p f.

Definition print (l : line) : prog unit := Print l (Ret tt).

(** A call raises what the collaborator raises. *)
Definition do_call (c : call) : prog value :=
  Call c (fun a => match a with inl e => Raise e | inr v => Ret v end).

Definition as_response (v : value) : prog response :=
  match v with VResponse r => Ret r | _ => Raise TypeError end.
Definition as_bytes (v : value) : prog bytes :=
  match v with VBytes b => Ret b | _ => Raise TypeError end.
Definition as_json (v : value) : prog (gmap string string) :=
  match v with VJson m => Ret m | _ => Raise TypeError end.
Definition as_files (v : value) : prog (list (string * N)) :=
  match v with VFiles fs => Ret fs | _ => Raise TypeError end.

Definition urlopen (url : string) (timeout : Z) : prog response :=
  do_call (Urlopen url timeout) ≫= as_response.
Definition session_get (url : string) : prog response :=
  do_call (SessionGet url) ≫= as_response.
Definition read (r : response) : prog bytes :=
  do_call (Read r) ≫= as_bytes.
Definition json (r : response) : prog (gmap string string) :=
  do_call (Json r) ≫= as_json.
Definition write_file (name : string) (data : bytes) : prog unit :=
  do_call (WriteFile name data) ≫= fun _ => Ret tt.
Definition glob (pattern : string) : prog (list (string * N)) :=
  do_call (Glob pattern) ≫= as_files.

Definition lift {A} (r : exn + A) : prog A :=
  match r with inl e => Raise e | inr a => Ret a end.

(** ** The exporter object and the strings it builds *)

Record ApiKey := { key : string }.

Record ApodExporter := {
  api_key : ApiKey;
  max_concurrent_downloads : Z;
  max_concurrent_exports : Z
}.

Definition str_of_nat (n : nat) : string := pretty n.

(** f"https://api.nasa.gov/planetary/apod?api_key={self.api_key.key}&date={date}" *)
Definition metadata_url_of (self : ApodExporter) (date : string) : string :=
  "https://api.nasa.gov/planetary/apod?api_key=" +:+ key (api_key self)
    +:+ "&date=" +:+ date.

(** f"apod-export-{index}.jpg" *)
Definition output_file_of (index : nat) : string :=
  "apod-export-" +:+ str_of_nat index +:+ ".jpg".

(** The configuration banner both [export] methods print first. *)
Definition banner (self : ApodExporter) (dates : list string) : list line :=
  [ Rule; Text "NASA APOD Local Exporter (Python)"; Rule;
    Text "Configuration:";
    ConfigApiKey (String.substring 0 10 (key (api_key self)));
    ConfigMaxDownloads (max_concurrent_downloads self);
    ConfigMaxExports (max_concurrent_exports self);
    ConfigDates dates;
    Rule; Blank ].

(** "Show downloaded files": the listing printed after the batch. *)
Definition listing (fs : list (string * N)) : list line :=
  match fs with
  | [] => [NoFilesFound]
  | _ => map (fun f => FileEntry f.1 f.2) fs
  end.

Definition footer : list line :=
  [ Blank; Rule; Text "Exiting..."; Rule; Blank; Text "Downloaded APODs:" ].

(** ** The interleaving machine

    One worker program per item.  An item waits in the queue until the
    admission gate lets it in, then performs its prints and calls one at a
    time, and leaves through the gate when it returns or raises.  A schedule
    is the list of item indices chosen at each step; every interleaving of
    the workers is the run of some schedule. *)

Inductive tstate : Type :=
| Queued (p : prog bool)      (* submitted, not yet inside its worker body *)
| Running (p : prog bool)     (* inside the body, [p] is what is left of it *)
| Done (r : exn + bool).      (* returned [inr b] or raised [inl e] *)

Inductive actor : Type := Main | Item (i : nat).

(** A collaborator call as observed from outside: who made it, what it was
    and what came back. *)
Record event := Event { who : actor; what : call; got : answer }.

Record state (W : Type) := State {
  stdout : list line;
  trace : list event;
  world : W
}.
Arguments State {W} _ _ _.
Arguments stdout {W} _.
Arguments trace {W} _.
Arguments world {W} _.

Record config (W G : Type) := Config {
  tasks : list tstate;
  gate : G;
  finished : list nat;       (* item indices in completion order *)
  st : state W
}.
Arguments Config {W G} _ _ _ _.
Arguments tasks {W G} _.
Arguments gate {W G} _.
Arguments finished {W G} _.
Arguments st {W G} _.

(** An admission gate: a thread pool or a semaphore. *)
Record gate_ops (G : Type) := GateOps {
  can_enter : G -> bool;
  enter : G -> G;
  leave : G -> G
}.
Arguments can_enter {G} _ _.
Arguments enter {G} _ _.
Arguments leave {G} _ _.

Section Machine.
Context {W : Type} (respond : W -> call -> answer * W).

Definition emit (l : line) (s : state W) : state W :=
  State (stdout s ++ [l]) (trace s) (world s).

Definition emit_all (ls : list line) (s : state W) : state W :=
  State (stdout s ++ ls) (trace s) (world s).

Definition perform (a : actor) (c : call) (s : state W) : answer * state W :=
  let r := respond (world s) c in
  (r.1, State (stdout s) (trace s ++ [Event a c r.1]) r.2).

(** Code of the main thread runs to completion on its own. *)
Fixpoint exec {A} (p : prog A) (s : state W) : (exn + A) * state W :=
  match p with
  | Ret a => (inr a, s)
  | Raise e => (inl e, s)
  | Print l k => exec k (emit l s)
  | Call c k => let r := perform Main c s in exec (k r.1) r.2
  end.

Context {G : Type} (ops : gate_ops G).

Definition step (c : config W G) (i : nat) : config W G :=
  match tasks c !! i with
  | Some (Queued p) =>
      if can_enter ops (gate c)
      then Config (<[i := Running p]> (tasks c)) (enter ops (gate c))
                  (finished c) (st c)
      else c
  | Some (Running (Print l k)) =>
      Config (<[i := Running k]> (tasks c)) (gate c) (finished c)
             (emit l (st c))
  | Some (Running (Call cl k)) =>
      let r := perform (Item i) cl (st c) in
      Config (<[i := Running (k r.1)]> (tasks c)) (gate c) (finished c) r.2
  | Some (Running (Ret b)) =>
      Config (<[i := Done (inr b)]> (tasks c)) (leave ops (gate c))
             (finished c ++ [i]) (st c)
  | Some (Running (Raise e)) =>
      Config (<[i := Done (inl e)]> (tasks c)) (leave ops (gate c))
             (finished c ++ [i]) (st c)
  | Some (Done _) | None => c
  end.

Definition run (c : config W G) (sched : list nat) : config W G :=
  foldl step c sched.

Definition submit_all (bodies : list (prog bool)) (g : G) (s : state W)
  : config W G :=
  Config (Queued <$> bodies) g [] s.
End Machine.

Definition is_done (t : tstate) : bool :=
  match t with Done _ => true | _ => false end.
Definition is_running (t : tstate) : bool :=
  match t with Running _ => true | _ => false end.
Definition is_queued (t : tstate) : bool :=
  match t with Queued _ => true | _ => false end.

Definition all_done (ts : list tstate) : bool := forallb is_done ts.

(** Number of items inside their worker body. *)
Definition in_flight (ts : list tstate) : nat := length (filter is_running ts).

(** The calls item [i] has made so far, oldest first. *)
Definition local (i : nat) (tr : list event) : list (call * answer) :=
  omap (fun ev => match who ev with
                  | Item j => if decide (j = i) then Some (what ev, got ev) else None
                  | Main => None
                  end) tr.

(** Python's [all]. *)
Definition all (bs : list bool) : bool := forallb id bs.

(** [enumerate(dates)] *)
Definition enumerate {A} (l : list A) : list (nat * A) := imap (fun i a => (i, a)) l.

(** The report both [export] methods end with; the listing is read back from
    the file system and may raise. *)
Definition report : prog unit :=
  foldr Print
    (fs ← glob "apod-export-*.jpg";
     foldr Print (Ret tt) (listing fs))
    footer.

(** [sys.exit(0 if success else 1)]; an exception that escapes [main] ends
    the interpreter with status 1. *)
Definition exit_status (r : exn + bool) : Z :=
  match r with
  | inr success => if success then 0%Z else 1%Z
  | inl _ => 1%Z
  end.

(** The dates [main] works on: the command-line arguments, or the built-in
    default when there is none. *)
Definition dates_of_argv (argv : list string) : list string :=
  let dates := ["2020-03-01"] in
  if decide (1 < length argv) then drop 1 argv else dates.

(** [os.getenv("NASA_API_KEY", "DEMO_KEY")] *)
Definition getenv_key (env : option string) : string := default "DEMO_KEY" env.

(** ** apod_exporter_sync.py: the thread-pool exporter *)
Module Sync.

(** [ThreadPoolExecutor(max_workers=n)]: the constructor refuses a pool
    without workers. *)
Definition ThreadPoolExecutor (max_workers : Z) : exn + Z :=
  if (max_workers <=? 0)%Z then inl ValueError else inr max_workers.

(** The gate of a pool: a queued item is taken as soon as fewer than
    [max_workers] items are being executed.  The gate state is the number
    of busy workers. *)
Definition pool (max_workers : Z) : gate_ops nat :=
  GateOps nat (fun busy => (Z.of_nat busy <? max_workers)%Z) S Nat.pred.

Section Sync.
Context {W : Type} (respond : W -> call -> answer * W).
(** [json.loads(body.decode('utf-8'))] *)
Context (json_loads : bytes -> exn + gmap string string).

Definition download_apod (self : ApodExporter) (date : string) (index : nat)
  : prog bool :=
  Print (Downloading date)
  (try_except
    (let metadata_url := metadata_url_of self date in
     response ← urlopen metadata_url 30;
     body ← read response;
     metadata ← lift (json_loads body);
     match metadata !! "url" with
     | None => Print (NoImageUrl date) (Ret false)
     | Some image_url =>
         response ← urlopen image_url 30;
         image_data ← read response;
         let output_file := output_file_of index in
         write_file output_file image_data;;
         let file_size := length image_data in
         Print (Exported date output_file file_size) (Ret true)
     end)
    (fun e => Print (ErrorProcessing date e) (Ret false))).

(** The futures submitted by [export], one per [enumerate(dates)]. *)
Definition futures (self : ApodExporter) (dates : list string)
  : list (prog bool) :=
  (fun '(index, date) => download_apod self date index) <$> enumerate dates.

(** The body of the [as_completed] loop for one future. *)
Definition future_result (dates : list string) (ts : list tstate) (i : nat)
  : bool * list line :=
  match ts !! i with
  | Some (Done (inr result)) => (result, [])
  | Some (Done (inl e)) =>
      (false, [ExceptionWhileProcessing (default "" (dates !! i)) e])
  | _ => (false, [])
  end.

(** The value of [results] after the [with] block: futures are taken in
    the order in which they completed. *)
Definition results_of (dates : list string) (c : config W nat) : list bool :=
  (fun i => (future_result dates (tasks c) i).1) <$> finished c.

Definition loop_output (dates : list string) (c : config W nat) : list line :=
  mjoin ((fun i => (future_result dates (tasks c) i).2) <$> finished c).

(** The machine after the pool has run the schedule. *)
Definition batch (self : ApodExporter) (dates : list string)
    (max_workers : Z) (sched : list nat) (s : state W) : config W nat :=
  run respond (pool max_workers)
      (submit_all (futures self dates) 0 s) sched.

(** [export]: [None] when the schedule ends before every future has
    completed, otherwise what the method raises or returns. *)
Definition export (self : ApodExporter) (dates : list string)
    (sched : list nat) (s : state W) : option (exn + bool) * state W :=
  let s := emit_all (banner self dates) s in
  match ThreadPoolExecutor (max_concurrent_downloads self) with
  | inl e => (Some (inl e), s)
  | inr max_workers =>
      let c := batch self dates max_workers sched s in
      if all_done (tasks c) then
        let results := results_of dates c in
        let s := emit_all (loop_output dates c) (st c) in
        match exec respond report s with
        | (inl e, s) => (Some (inl e), s)
        | (inr _, s) => (Some (inr (all results)), s)
        end
      else (None, st c)
  end.

Definition main (argv : list string) (env : option string)
    (sched : list nat) (s : state W) : option Z * state W :=
  let api_key := {| key := getenv_key env |} in
  let dates := dates_of_argv argv in
  let exporter := {| api_key := api_key;
                     max_concurrent_downloads := 3;
                     max_concurrent_exports := 3 |} in
  let r := export exporter dates sched s in
  (exit_status <$> r.1, r.2).
End Sync.
End Sync.

(** ** apod_local_exporter.py: the asyncio exporter *)
Module Async.

(** [asyncio.Semaphore(value)]: the constructor refuses a negative value
    and accepts zero. *)
Definition Semaphore (value : Z) : exn + Z :=
  if (value <? 0)%Z then inl ValueError else inr value.

(** [async with self.semaphore]: acquire takes a permit when one is left,
    release gives it back.  The gate state is the semaphore's counter. *)
Definition sem : gate_ops Z :=
  GateOps Z (fun value => (0 <? value)%Z) Z.pred Z.succ.

(** The exporter object of this file has one more attribute. *)
Record Exporter := {
  base : ApodExporter;
  semaphore : Z
}.

(** [ApodExporter.__init__] *)
Definition new (api_key : ApiKey) (max_concurrent_downloads : Z)
    (max_concurrent_exports : Z) : exn + Exporter :=
  match Semaphore max_concurrent_downloads with
  | inl e => inl e
  | inr value =>
      inr {| base := {| api_key := api_key;
                        max_concurrent_downloads := max_concurrent_downloads;
                        max_concurrent_exports := max_concurrent_exports |};
             semaphore := value |}
  end.

Section Async.
Context {W : Type} (respond : W -> call -> answer * W).

(** The body of [download_apod] under [async with self.semaphore]. *)
Definition download_apod (self : Exporter) (date : string) (index : nat)
  : prog bool :=
  Print (Downloading date)
  (try_except
    (let metadata_url := metadata_url_of (base self) date in
     response ← session_get metadata_url;
     if decide (status response ≠ 200%Z)
     then Print (MetadataHttpFailure date (status response)) (Ret false)
     else
     metadata ← json response;
     match metadata !! "url" with
     | None => Print (NoImageUrl date) (Ret false)
     | Some image_url =>
         response ← session_get image_url;
         if decide (status response ≠ 200%Z)
         then Print (ImageHttpFailure date (status response)) (Ret false)
         else
         image_data ← read response;
         let output_file := output_file_of index in
         write_file output_file image_data;;
         let file_size := length image_data in
         Print (Exported date output_file file_size) (Ret true)
     end)
    (fun e => Print (ErrorProcessing date e) (Ret false))).

Definition coroutines (self : Exporter) (dates : list string)
  : list (prog bool) :=
  (fun '(index, date) => download_apod self date index) <$> enumerate dates.

Definition batch (self : Exporter) (dates : list string)
    (sched : list nat) (s : state W) : config W Z :=
  run respond sem (submit_all (coroutines self dates) (semaphore self) s) sched.

(** The first exception among the tasks, in completion order. *)
Definition first_raised (c : config W Z) : option exn :=
  head (omap (fun i => match tasks c !! i with
                       | Some (Done (inl e)) => Some e
                       | _ => None
                       end) (finished c)).

(** What the tasks returned, in the order of the tasks. *)
Definition results_of (c : config W Z) : list bool :=
  (fun t => match t with Done (inr b) => b | _ => false end) <$> tasks c.

(** [await asyncio.gather] over the tasks: raises the first exception of a task,
    otherwise returns the results in the order of the tasks. *)
Definition gather (c : config W Z) : exn + list bool :=
  match first_raised c with
  | Some e => inl e
  | None => inr (results_of c)
  end.

Definition export (self : Exporter) (dates : list string)
    (sched : list nat) (s : state W) : option (exn + bool) * state W :=
  let s := emit_all (banner (base self) dates) s in
  let c := batch self dates sched s in
  if all_done (tasks c) then
    match gather c with
    | inl e => (Some (inl e), st c)
    | inr results =>
        match exec respond report (st c) with
        | (inl e, s) => (Some (inl e), s)
        | (inr _, s) => (Some (inr (all results)), s)
        end
    end
  else (None, st c).

Definition main (argv : list string) (env : option string)
    (sched : list nat) (s : state W) : option Z * state W :=
  let api_key := {| key := getenv_key env |} in
  let dates := dates_of_argv argv in
  match new api_key 3 3 with
  | inl e => (Some (exit_status (inl e)), s)
  | inr exporter =>
      let r := export exporter dates sched s in
      (exit_status <$> r.1, r.2)
  end.
End Async.
End Async.

(** ** Vocabulary of the statements *)

(** [reaches p h q]: the worker [p], after making the calls [h] (with these
    answers, oldest first) and any prints in between, is left with [q]. *)
Inductive reaches {A : Type} : prog A -> list (call * answer) -> prog A -> Prop :=
| reaches_here p : reaches p [] p
| reaches_print l k h q : reaches k h q -> reaches (Print l k) h q
| reaches_call c k a h q : reaches (k a) h q -> reaches (Call c k) ((c, a) :: h) q.

(** No answer of the collaborators makes the worker raise. *)
Fixpoint never_raises {A : Type} (p : prog A) : Prop :=
  match p with
  | Ret _ => True
  | Raise _ => False
  | Print _ k => never_raises k
  | Call _ k => forall a, never_raises (k a)
  end.

(** Whatever the answers, the worker is over after at most [n] prints and
    calls. *)
Fixpoint halts_within {A : Type} (n : nat) (p : prog A) {struct p} : Prop :=
  match p with
  | Ret _ | Raise _ => True
  | Print _ k => match n with O => False | S m => halts_within m k end
  | Call _ k => match n with O => False | S m => forall a, halts_within m (k a) end
  end.

(** How a finished or unfinished item relates to its worker program and to
    the calls it has made. *)
Definition task_ok (body : prog bool) (h : list (call * answer)) (t : tstate)
  : Prop :=
  match t with
  | Queued p => p = body /\ h = []
  | Running q => reaches body h q
  | Done (inr b) => reaches body h (Ret b)
  | Done (inl e) => reaches body h (Raise e)
  end.

(** The result of item [i], once it has returned. *)
Definition outcome_at (ts : list tstate) (i : nat) : option bool :=
  match ts !! i with
  | Some (Done (inr b)) => Some b
  | _ => None
  end.

(** The events recorded since the state [s]. *)
Definition since {W : Type} (s : state W) (s' : state W) : list event :=
  drop (length (trace s)) (trace s').

(** The timeout a call is made with, when it is made with one. *)
Definition call_timeout (c : call) : option Z :=
  match c with
  | Urlopen _ timeout => Some timeout
  | _ => None
  end.

Definition is_write (c : call) : bool :=
  match c with WriteFile _ _ => true | _ => false end.

(** Names of the files the run has written. *)
Definition written (tr : list event) : list string :=
  omap (fun ev => match what ev, got ev with
                  | WriteFile name _, inr _ => Some name
                  | _, _ => None
                  end) tr.

Definition raised (a : answer) : bool :=
  match a with inl _ => true | inr _ => false end.

(** Every item of a run follows its own worker program: what is left of it
    is what the program becomes after the calls the item has made since the
    start state [s0]. *)
Definition inv {W G : Type} (bodies : list (prog bool)) (s0 : state W)
    (c : config W G) : Prop :=
  exists tr, trace (st c) = trace s0 ++ tr /\
    forall i body t, bodies !! i = Some body -> tasks c !! i = Some t ->
      task_ok body (local i tr) t.

(** The completion order lists exactly the finished items, each once. *)
Definition fin_inv {W G : Type} (c : config W G) : Prop :=
  NoDup (finished c) /\
  forall i, i ∈ finished c <-> exists r, tasks c !! i = Some (Done r).

(** The schedule that runs the items [start], [start + 1], ... one after the
    other: one step to enter and [n + 1] steps inside the body for each. *)
Definition sequential (n start k : nat) : list nat :=
  mjoin ((fun i => replicate (n + 2) i) <$> seq start k).

(** Two configurations that differ at most in what has been printed. *)
Definition blind {W G : Type} (c c' : config W G) : Prop :=
  tasks c = tasks c' /\ gate c = gate c' /\ finished c = finished c' /\
  trace (st c) = trace (st c') /\ world (st c) = world (st c').

(** ** The three steps of a worker, read off the calls it has made

    A worker makes at most five calls: two to locate the image (request the
    metadata, read or decode it), two to fetch it (request the image, read
    it) and one to persist it.  Each step is pending, has failed, or has
    produced its result. *)
Inductive stage (A : Type) : Type :=
| Pending
| Failed
| Ok (a : A).
Arguments Pending {A}.
Arguments Failed {A}.
Arguments Ok {A} a.

Definition is_ok {A : Type} (s : stage A) : bool :=
  match s with Ok _ => true | _ => false end.

(** The locate step of the thread-pool worker: [urlopen], [read], then
    [json.loads] and the test for the ["url"] key. *)
Definition sync_locate (json_loads : bytes -> exn + gmap string string)
    (h : list (call * answer)) : stage string :=
  match h with
  | [] => Pending
  | (_, inr (VResponse _)) :: [] => Pending
  | (_, inr (VResponse _)) :: (_, inr (VBytes body)) :: _ =>
      match json_loads body with
      | inr metadata =>
          match metadata !! "url" with
          | Some image_url => Ok image_url
          | None => Failed
          end
      | inl _ => Failed
      end
  | _ => Failed
  end.

(** The fetch step of the thread-pool worker: [urlopen] and [read]. *)
Definition sync_fetch (h : list (call * answer)) : stage bytes :=
  match drop 2 h with
  | [] => Pending
  | (_, inr (VResponse _)) :: [] => Pending
  | (_, inr (VResponse _)) :: (_, inr (VBytes image_data)) :: _ => Ok image_data
  | _ => Failed
  end.

(** The locate step of the asyncio worker: [session.get], the status test,
    [response.json()] and the test for the ["url"] key. *)
Definition async_locate (h : list (call * answer)) : stage string :=
  match h with
  | [] => Pending
  | (_, inr (VResponse response)) :: rest =>
      if decide (status response ≠ 200%Z) then Failed
      else match rest with
           | [] => Pending
           | (_, inr (VJson metadata)) :: _ =>
               match metadata !! "url" with
               | Some image_url => Ok image_url
               | None => Failed
               end
           | _ => Failed
           end
  | _ => Failed
  end.

(** The fetch step of the asyncio worker: [session.get], the status test and
    [response.read()]. *)
Definition async_fetch (h : list (call * answer)) : stage bytes :=
  match drop 2 h with
  | [] => Pending
  | (_, inr (VResponse response)) :: rest =>
      if decide (status response ≠ 200%Z) then Failed
      else match rest with
           | [] => Pending
           | (_, inr (VBytes image_data)) :: _ => Ok image_data
           | _ => Failed
           end
  | _ => Failed
  end.

(** The persist step of both workers: the file write. *)
Definition persisted (h : list (call * answer)) : stage unit :=
  match drop 4 h with
  | [] => Pending
  | (_, inr _) :: _ => Ok tt
  | (_, inl _) :: _ => Failed
  end.

Definition sync_item_ok (json_loads : bytes -> exn + gmap string string)
    (h : list (call * answer)) : bool :=
  is_ok (sync_locate json_loads h) && is_ok (sync_fetch h) && is_ok (persisted h).

Definition async_item_ok (h : list (call * answer)) : bool :=
  is_ok (async_locate h) && is_ok (async_fetch h) && is_ok (persisted h).

(** What the [n]-th call of the thread-pool worker for [date] and [index]
    is, and what must have succeeded before it is made. *)
Definition sync_stage_call (json_loads : bytes -> exn + gmap string string)
    (self : ApodExporter) (date : string) (index : nat)
    (h : list (call * answer)) (n : nat) (c : call) : Prop :=
  match n with
  | 0 => c = Urlopen (metadata_url_of self date) 30
  | 1 => exists r, c = Read r
  | 2 => exists image_url,
           sync_locate json_loads h = Ok image_url /\ c = Urlopen image_url 30
  | 3 => exists r, is_ok (sync_locate json_loads h) = true /\ c = Read r
  | 4 => exists image_data,
           sync_fetch h = Ok image_data /\
           c = WriteFile (output_file_of index) image_data
  | _ => False
  end.

(** The same for the asyncio worker. *)
Definition async_stage_call (self : ApodExporter) (date : string) (index : nat)
    (h : list (call * answer)) (n : nat) (c : call) : Prop :=
  match n with
  | 0 => c = SessionGet (metadata_url_of self date)
  | 1 => exists r, c = Json r
  | 2 => exists image_url,
           async_locate h = Ok image_url /\ c = SessionGet image_url
  | 3 => exists r, is_ok (async_locate h) = true /\ c = Read r
  | 4 => exists image_data,
           async_fetch h = Ok image_data /\
           c = WriteFile (output_file_of index) image_data
  | _ => False
  end.

(** The calls item [i] has made between the start state [s] and the
    configuration [c], with their answers. *)
Definition item_calls {W G : Type} (s : state W) (c : config W G) (i : nat)
  : list (call * answer) :=
  local i (since s (st c)).

(** ** A small world to run the exporters in

    The metadata request for the date [bad] times out, every other request
    succeeds; files are kept in a map from names to contents. *)
Definition demo_exporter : ApodExporter :=
  {| api_key := {| key := "DEMO_KEY" |};
     max_concurrent_downloads := 3;
     max_concurrent_exports := 3 |}.

Definition demo_respond (bad : string) (w : gmap string bytes) (c : call)
  : answer * gmap string bytes :=
  match c with
  | Urlopen url _ | SessionGet url =>
      if decide (url = metadata_url_of demo_exporter bad)
      then (inl TimeoutError, w)
      else (inr (VResponse (Response 200 0)), w)
  | Read _ => (inr (VBytes [Byte.x41; Byte.x42]), w)
  | Json _ => (inr (VJson {["url" := "https://apod.nasa.gov/image.jpg"]}), w)
  | WriteFile name data => (inr VNone, <[name := data]> w)
  | Glob _ =>
      (inr (VFiles ((fun f => (f.1, N.of_nat (length f.2))) <$> map_to_list w)), w)
  end.

Definition demo_json_loads (b : bytes) : exn + gmap string string :=
  inr {["url" := "https://apod.nasa.gov/image.jpg"]}.

Definition demo_state : state (gmap string bytes) := State [] [] ∅.

Definition demo_async : Async.Exporter :=
  {| Async.base := demo_exporter; Async.semaphore := 3 |}.

(** Round-robin over [k] items, [n] rounds. *)
Definition round_robin (k n : nat) : list nat := mjoin (replicate n (seq 0 k)).

Definition demo_dates : list string := ["2020-03-01"; "2020-03-02"; "2020-03-03"].

(** The same exporter built with another [max_concurrent_exports]. *)
Definition with_exports (m : Z) (self : ApodExporter) : ApodExporter :=
  {| api_key := api_key self;
     max_concurrent_downloads := max_concurrent_downloads self;
     max_concurrent_exports := m |}.

Definition async_with_exports (m : Z) (x : Async.Exporter) : Async.Exporter :=
  {| Async.base := with_exports m (Async.base x);
     Async.semaphore := Async.semaphore x |}.

(** The two exporters on three dates, the second of which cannot be
    located. *)
Abbreviation demo_sync_run sched :=
  (Sync.batch (demo_respond "2020-03-02") demo_json_loads demo_exporter
     demo_dates 3 sched demo_state).

Abbreviation demo_async_run sched :=
  (Async.batch (demo_respond "2020-03-02") demo_async demo_dates sched
     demo_state).

(** An exporter configured with a limit of zero. *)
Definition demo_zero : ApodExporter :=
  {| api_key := {| key := "DEMO_KEY" |};
     max_concurrent_downloads := 0;
     max_concurrent_exports := 3 |}.

(** ** Vocabulary of the further properties *)

(** The names of the files written, successfully, among the calls [h]. *)
Definition files_of (h : list (call * answer)) : list string :=
  omap (fun ca => match ca with
                  | (WriteFile name _, inr _) => Some name
                  | _ => None
                  end) h.

(** The HTTP requests among the calls [h]. *)
Definition is_request (c : call) : bool :=
  match c with
  | Urlopen _ _ | SessionGet _ => true
  | _ => false
  end.

Definition requests_of (h : list (call * answer)) : list call :=
  List.filter is_request h.*1.

(** The events [tr] all come from items of a batch of [K] items. *)
Definition by_items (K : nat) (tr : list event) : Prop :=
  Forall (fun ev => exists i, who ev = Item i /\ (i < K)%nat) tr.

(** The small world again, where the metadata request for the date [bad] is
    answered with status 404 instead of timing out. *)
Definition demo_respond_404 (bad : string) (w : gmap string bytes) (c : call)
  : answer * gmap string bytes :=
  match c with
  | Urlopen url _ | SessionGet url =>
      if decide (url = metadata_url_of demo_exporter bad)
      then (inr (VResponse (Response 404 0)), w)
      else demo_respond "" w c
  | _ => demo_respond "" w c
  end.

(** An exporter whose key is longer than what the banner shows. *)
Definition demo_long_key : ApodExporter :=
  {| api_key := {| key := "abcdefghijklmnop" |};
     max_concurrent_downloads := 3;
     max_concurrent_exports := 3 |}.

(** ** Facts about worker programs *)

Lemma reaches_snoc_print {A} (p : prog A) h l k :
  reaches p h (Print l k) -> reaches p h k.
Proof.
  intros H. remember (Print l k) as q eqn:E.
  induction H as [p|l' k' h q H IH|c k' a h q H IH]; subst.
  - apply reaches_print, reaches_here.
  - apply reaches_print, IH; reflexivity.
  - apply reaches_call, IH; reflexivity.
Qed.

Lemma reaches_snoc_call {A} (p : prog A) h c k a :
  reaches p h (Call c k) -> reaches p (h ++ [(c, a)]) (k a).
Proof.
  intros H. remember (Call c k) as q eqn:E.
  induction H as [p|l' k' h q H IH|c' k' a' h q H IH]; subst.
  - apply reaches_call, reaches_here.
  - apply reaches_print, IH; reflexivity.
  - simpl. apply reaches_call, IH; reflexivity.
Qed.

Lemma reaches_never_raises {A} (p q : prog A) h :
  reaches p h q -> never_raises p -> never_raises q.
Proof.
  induction 1 as [p|l k h q H IH|c k a h q H IH]; simpl; auto.
Qed.

Lemma halts_within_mono {A} (p : prog A) n m :
  (n <= m)%nat -> halts_within n p -> halts_within m p.
Proof.
  revert n m. induction p as [a|e|l k IH|c k IH]; intros n m Hle; simpl; auto.
  - destruct n as [|n], m as [|m]; [tauto|tauto|lia|].
    apply IH. lia.
  - destruct n as [|n], m as [|m]; [tauto|tauto|lia|].
    intros Hk a. eapply IH; [|apply Hk]. lia.
Qed.

Lemma reaches_halts {A} (p q : prog A) h n :
  reaches p h q -> halts_within n p -> halts_within n q.
Proof.
  intros H. revert n.
  induction H as [p|l k h q H IH|c k a h q H IH]; intros n Hn; auto.
  - destruct n as [|n]; simpl in Hn; [contradiction|].
    eapply halts_within_mono; [|apply IH, Hn]. lia.
  - destruct n as [|n]; simpl in Hn; [contradiction|].
    eapply halts_within_mono; [|apply IH, Hn]. lia.
Qed.

(** ** Facts about the machine *)

Lemma local_app i tr1 tr2 : local i (tr1 ++ tr2) = local i tr1 ++ local i tr2.
Proof. unfold local. apply omap_app. Qed.

Lemma local_item_same i c a : local i [Event (Item i) c a] = [(c, a)].
Proof. unfold local. simpl. rewrite decide_True by done. done. Qed.

Lemma local_item_other i j c a : j ≠ i -> local i [Event (Item j) c a] = [].
Proof. intros H. unfold local. simpl. rewrite decide_False by done. done. Qed.

Lemma in_flight_insert ts i t t' :
  ts !! i = Some t ->
  (in_flight (<[i := t']> ts) + (if is_running t then 1 else 0)
   = in_flight ts + (if is_running t' then 1 else 0))%nat.
Proof.
  unfold in_flight. revert i. induction ts as [|x ts IH]; intros [|i] H; simplify_eq/=.
  - rewrite !filter_cons. destruct (is_running t), (is_running t'); simpl; lia.
  - rewrite !filter_cons. specialize (IH i H).
    destruct (decide (is_running x)); simpl; lia.
Qed.

Lemma in_flight_queued (ps : list (prog bool)) : in_flight (Queued <$> ps) = 0%nat.
Proof.
  unfold in_flight. induction ps as [|p ps IH]; [done|].
  rewrite fmap_cons, filter_cons. simpl. done.
Qed.

Lemma all_done_lookup ts :
  all_done ts = true <-> forall i, (i < length ts)%nat -> exists r, ts !! i = Some (Done r).
Proof.
  unfold all_done. rewrite forallb_forall. split.
  - intros H i Hi. destruct (lookup_lt_is_Some_2 ts i Hi) as [t Ht].
    assert (Hd : is_done t = true).
    { apply H. apply list_elem_of_In. eapply list_elem_of_lookup_2; eauto. }
    destruct t; try discriminate. eauto.
  - intros H t Ht. apply list_elem_of_In, list_elem_of_lookup_1 in Ht as [i Hi].
    destruct (H i) as [r Hr]; [by eapply lookup_lt_Some|]. by simplify_eq.
Qed.

Ltac step_cases c i :=
  unfold step;
  destruct (tasks c !! i) as [[?p|[?b|?e|?l ?k|?cl ?k]|?r]|] eqn:?Hi;
  [destruct (can_enter _ (gate c)) eqn:?Hg| ..]; simpl.

Section MachineFacts.
Context {W : Type} (respond : W -> call -> answer * W).
Context {G : Type} (ops : gate_ops G).
Implicit Types (c : config W G) (i : nat) (sched : list nat) (s : state W) (g : G).

#[local] Abbreviation mstep := (step respond ops).
#[local] Abbreviation mrun := (run respond ops).

Lemma run_app c sched sched' :
  mrun c (sched ++ sched') = mrun (mrun c sched) sched'.
Proof. unfold run. apply foldl_app. Qed.

Lemma run_snoc c sched i : mrun c (sched ++ [i]) = mstep (mrun c sched) i.
Proof. rewrite run_app. done. Qed.

(** Any property kept by every step holds all along every run. *)
Lemma run_ind (P : config W G -> Prop) c sched :
  P c -> (forall c' i, P c' -> P (mstep c' i)) -> P (mrun c sched).
Proof.
  intros H0 Hs. revert c H0. induction sched as [|i sched IH]; intros c H0; [done|].
  simpl. apply IH. by apply Hs.
Qed.

Lemma step_length c i : length (tasks (mstep c i)) = length (tasks c).
Proof. step_cases c i; by rewrite ?length_insert. Qed.

Lemma run_length c sched : length (tasks (mrun c sched)) = length (tasks c).
Proof.
  apply (run_ind (fun c' => length (tasks c') = length (tasks c))); [done|].
  intros c' i H. by rewrite step_length.
Qed.

(** *** Every item follows its own worker program *)

Lemma inv_init bodies g s : inv bodies s (submit_all bodies g s).
Proof.
  exists []. split; [by rewrite app_nil_r|].
  intros i body t Hb Ht. simpl in Ht. rewrite list_lookup_fmap, Hb in Ht.
  simplify_eq/=. done.
Qed.

Lemma inv_step bodies s c i : inv bodies s c -> inv bodies s (mstep c i).
Proof.
  intros (tr & Htr & H).
  assert (Hkeep : forall t', (forall body, bodies !! i = Some body ->
             forall t, tasks c !! i = Some t -> task_ok body (local i tr) t ->
             task_ok body (local i tr) t') ->
           forall j body t, bodies !! j = Some body ->
             <[i := t']> (tasks c) !! j = Some t -> task_ok body (local j tr) t).
  { intros t' Ht' j body t Hb Ht. destruct (decide (j = i)) as [->|Hne].
    - destruct (tasks c !! i) as [t0|] eqn:E.
      + rewrite list_lookup_insert_eq in Ht by (by eapply lookup_lt_Some).
        simplify_eq. eauto.
      + rewrite list_insert_ge in Ht by (by apply lookup_ge_None). congruence.
    - rewrite list_lookup_insert_ne in Ht by done. eauto. }
  step_cases c i; try (by exists tr).
  - exists tr. split; [done|]. apply Hkeep. intros body Hb t Ht Hok.
    simplify_eq. destruct Hok as [-> _]. simpl. 
    specialize (H i _ _ Hb Hi) as [_ ->]. apply reaches_here.
  - exists tr. split; [done|]. apply Hkeep. intros body Hb t Ht Hok.
    simplify_eq. done.
  - exists tr. split; [done|]. apply Hkeep. intros body Hb t Ht Hok.
    simplify_eq. done.
  - exists tr. split; [done|]. apply Hkeep. intros body Hb t Ht Hok.
    simplify_eq. simpl in *. by eapply reaches_snoc_print.
  - exists (tr ++ [Event (Item i) cl (respond (world (st c)) cl).1]).
    split; [by rewrite Htr, app_assoc|].
    intros j body t Hb Ht. simpl in Ht. rewrite local_app.
    destruct (decide (j = i)) as [->|Hne].
    + rewrite local_item_same.
      rewrite list_lookup_insert_eq in Ht by (by eapply lookup_lt_Some).
      simplify_eq. simpl. apply reaches_snoc_call. by apply (H i _ _ Hb Hi).
    + rewrite local_item_other, app_nil_r by done.
      rewrite list_lookup_insert_ne in Ht by done. eauto.
Qed.

Lemma inv_run bodies g s sched :
  inv bodies s (mrun (submit_all bodies g s) sched).
Proof. apply run_ind; [apply inv_init|]. intros. by apply inv_step. Qed.
End MachineFacts.

Section MachineFacts2.
Context {W : Type} (respond : W -> call -> answer * W).
Context {G : Type} (ops : gate_ops G).
Implicit Types (c : config W G) (i : nat) (sched : list nat) (s : state W) (g : G).
#[local] Abbreviation mstep := (step respond ops).
#[local] Abbreviation mrun := (run respond ops).

(** *** The completion order lists the finished items, each once *)

Lemma fin_inv_init bodies g s : fin_inv (submit_all bodies g s : config W G).
Proof.
  split; [apply NoDup_nil_2|]. intros i. simpl. split.
  - intros H. by apply elem_of_nil in H.
  - intros [r Hr]. rewrite list_lookup_fmap in Hr.
    destruct (bodies !! i); simplify_eq/=.
Qed.

Lemma fin_inv_finish c i q t' :
  fin_inv c -> tasks c !! i = Some (Running q) ->
  NoDup (finished c ++ [i]) /\
  forall j, j ∈ finished c ++ [i] <->
    exists r, <[i := Done t']> (tasks c) !! j = Some (Done r).
Proof.
  intros [Hnd Hin] Hi.
  assert (Hlt : (i < length (tasks c))%nat) by (by eapply lookup_lt_Some).
  assert (Hni : i ∉ finished c).
  { intros Hel. apply Hin in Hel as [r Hr]. congruence. }
  split.
  - apply NoDup_app. split_and!; [done| |apply NoDup_singleton].
    intros x Hx Hx'. apply list_elem_of_singleton in Hx'. by subst.
  - intros j. rewrite elem_of_app, list_elem_of_singleton.
    destruct (decide (j = i)) as [->|Hne].
    + rewrite list_lookup_insert_eq by done. naive_solver.
    + rewrite list_lookup_insert_ne by done. rewrite Hin. naive_solver.
Qed.

Lemma fin_inv_keep c i q t' :
  fin_inv c -> tasks c !! i = Some q -> is_done q = false -> is_done t' = false ->
  forall j, j ∈ finished c <->
    exists r, <[i := t']> (tasks c) !! j = Some (Done r).
Proof.
  intros [Hnd Hin] Hi Hq Ht' j.
  assert (Hlt : (i < length (tasks c))%nat) by (by eapply lookup_lt_Some).
  rewrite Hin. destruct (decide (j = i)) as [->|Hne].
  - rewrite list_lookup_insert_eq by done. rewrite Hi.
    split; intros [r Hr]; simplify_eq/=.
  - by rewrite list_lookup_insert_ne by done.
Qed.

Lemma fin_inv_step c i : fin_inv c -> fin_inv (mstep c i).
Proof.
  intros H. pose proof H as [Hnd Hin].
  step_cases c i; try done.
  - split; simpl; [done|]. by eapply fin_inv_keep.
  - unfold fin_inv; simpl. by eapply fin_inv_finish.
  - unfold fin_inv; simpl. by eapply fin_inv_finish.
  - split; simpl; [done|]. by eapply fin_inv_keep.
  - split; simpl; [done|]. by eapply fin_inv_keep.
Qed.

Lemma fin_inv_run bodies g s sched :
  fin_inv (mrun (submit_all bodies g s) sched).
Proof. apply run_ind; [apply fin_inv_init|]. intros. by apply fin_inv_step. Qed.

Lemma fin_inv_all_done c :
  fin_inv c -> all_done (tasks c) = true ->
  finished c ≡ₚ seq 0 (length (tasks c)).
Proof.
  intros [Hnd Hin] Hall. apply NoDup_Permutation; [done|apply NoDup_seq|].
  intros i. rewrite Hin, elem_of_seq. split.
  - intros [r Hr]. apply lookup_lt_Some in Hr. lia.
  - intros Hi. eapply all_done_lookup; [done|lia].
Qed.
End MachineFacts2.

Section MachineFacts3.
Context {W : Type} (respond : W -> call -> answer * W).
Context {G : Type} (ops : gate_ops G).
Implicit Types (c : config W G) (i : nat) (sched : list nat) (s : state W) (g : G).
#[local] Abbreviation mstep := (step respond ops).
#[local] Abbreviation mrun := (run respond ops).

(** *** What one step does to the gate and to the number of items in flight *)

Lemma step_gate c i :
  (gate (mstep c i) = gate c /\ in_flight (tasks (mstep c i)) = in_flight (tasks c))
  \/ (can_enter ops (gate c) = true /\ gate (mstep c i) = enter ops (gate c) /\
      in_flight (tasks (mstep c i)) = S (in_flight (tasks c)))
  \/ (gate (mstep c i) = leave ops (gate c) /\
      S (in_flight (tasks (mstep c i))) = in_flight (tasks c)).
Proof.
  step_cases c i; auto.
  - right; left. split_and!; [done..|].
    pose proof (in_flight_insert _ _ _ (Running p) Hi) as H. simpl in H. lia.
  - right; right. split; [done|].
    pose proof (in_flight_insert _ _ _ (Done (inr b)) Hi) as H. simpl in H. lia.
  - right; right. split; [done|].
    pose proof (in_flight_insert _ _ _ (Done (inl e)) Hi) as H. simpl in H. lia.
  - left. split; [done|].
    pose proof (in_flight_insert _ _ _ (Running k) Hi) as H. simpl in H. lia.
  - left. split; [done|].
    pose proof (in_flight_insert _ _ _
      (Running (k (respond (world (st c)) cl).1)) Hi) as H. simpl in H. lia.
Qed.

(** A queued item enters as soon as the gate lets it. *)
Lemma step_enters c i p :
  tasks c !! i = Some (Queued p) -> can_enter ops (gate c) = true ->
  tasks (mstep c i) !! i = Some (Running p).
Proof.
  intros Hi Hg. unfold step. rewrite Hi, Hg. simpl.
  apply list_lookup_insert_eq. by eapply lookup_lt_Some.
Qed.

(** *** A worker that is scheduled often enough finishes *)

Lemma step_done c i r : tasks c !! i = Some (Done r) -> mstep c i = c.
Proof. intros Hi. unfold step. by rewrite Hi. Qed.

Lemma run_done c i r n :
  tasks c !! i = Some (Done r) -> mrun c (replicate n i) = c.
Proof.
  intros Hi. induction n as [|n IH]; [done|]. simpl. by rewrite (step_done _ _ r).
Qed.

Lemma run_cons c i sched : mrun c (i :: sched) = mrun (mstep c i) sched.
Proof. done. Qed.

Lemma run_to_done c i q n :
  tasks c !! i = Some (Running q) -> halts_within n q ->
  exists r, let c' := mrun c (replicate (S n) i) in
    tasks c' = <[i := Done r]> (tasks c) /\
    gate c' = leave ops (gate c) /\
    finished c' = finished c ++ [i] /\
    (never_raises q -> exists b, r = inr b).
Proof.
  revert c n. induction q as [b|e|l k IH|cl k IH]; intros c n Hi Hn;
    assert (Hlt : (i < length (tasks c))%nat) by (by eapply lookup_lt_Some);
    cbn zeta; rewrite replicate_S, run_cons; set (c1 := mstep c i).
  - assert (H1 : c1 = Config (<[i := Done (inr b)]> (tasks c))
                        (leave ops (gate c)) (finished c ++ [i]) (st c)).
    { unfold c1, step. by rewrite Hi. }
    exists (inr b). rewrite (run_done c1 i (inr b)).
    + rewrite H1. simpl. eauto.
    + rewrite H1. simpl. by apply list_lookup_insert_eq.
  - assert (H1 : c1 = Config (<[i := Done (inl e)]> (tasks c))
                        (leave ops (gate c)) (finished c ++ [i]) (st c)).
    { unfold c1, step. by rewrite Hi. }
    exists (inl e). rewrite (run_done c1 i (inl e)).
    + rewrite H1. simpl. split_and!; done.
    + rewrite H1. simpl. by apply list_lookup_insert_eq.
  - destruct n as [|n]; [done|]. simpl in Hn.
    assert (H1 : c1 = Config (<[i := Running k]> (tasks c)) (gate c)
                        (finished c) (emit l (st c))).
    { unfold c1, step. by rewrite Hi. }
    destruct (IH c1 n) as (r & Ht & Hg & Hf & Hr).
    { rewrite H1. simpl. by apply list_lookup_insert_eq. }
    { done. }
    exists r. cbn zeta in *. rewrite Ht, Hg, Hf, H1. simpl.
    rewrite list_insert_insert_eq. split_and!; done.
  - destruct n as [|n]; [done|]. simpl in Hn.
    set (a := (respond (world (st c)) cl).1).
    assert (H1 : c1 = Config (<[i := Running (k a)]> (tasks c)) (gate c)
                        (finished c) (perform respond (Item i) cl (st c)).2).
    { unfold c1, step. by rewrite Hi. }
    destruct (IH a c1 n) as (r & Ht & Hg & Hf & Hr).
    { rewrite H1. simpl. by apply list_lookup_insert_eq. }
    { done. }
    exists r. cbn zeta in *. rewrite Ht, Hg, Hf, H1. simpl.
    rewrite list_insert_insert_eq. split_and!; try done. simpl. auto.
Qed.

Lemma sequential_S n start k :
  sequential n start (S k) = replicate (n + 2) start ++ sequential n (S start) k.
Proof. done. Qed.

Lemma sequential_completes n (ps : list (prog bool)) :
  Forall (halts_within n) ps ->
  forall c ds,
    tasks c = ds ++ (Queued <$> ps) ->
    all_done ds = true ->
    can_enter ops (gate c) = true ->
    (forall g, leave ops (enter ops g) = g) ->
    all_done (tasks (mrun c (sequential n (length ds) (length ps)))) = true.
Proof.
  induction 1 as [|p ps Hp Hps IH]; intros c ds Hts Hds Hg Hle.
  - simpl. rewrite Hts. simpl. by rewrite app_nil_r.
  - cbn [length]. rewrite sequential_S, run_app.
    assert (Hi : tasks c !! length ds = Some (Queued p)).
    { rewrite Hts. rewrite lookup_app_r by lia.
      by replace (length ds - length ds)%nat with 0%nat by lia. }
    replace (n + 2)%nat with (S (S n)) by lia. rewrite replicate_S, run_cons.
    set (c1 := mstep c (length ds)).
    assert (H1 : c1 = Config (<[length ds := Running p]> (tasks c))
                        (enter ops (gate c)) (finished c) (st c)).
    { unfold c1, step. by rewrite Hi, Hg. }
    destruct (run_to_done c1 (length ds) p n) as (r & Ht & Hg' & _); [|done|].
    { rewrite H1. simpl. apply list_lookup_insert_eq. by eapply lookup_lt_Some. }
    cbn zeta in *.
    replace (S (length ds)) with (length (ds ++ [Done r]))
      by (rewrite length_app; simpl; lia).
    apply IH; try done.
    + rewrite Ht, H1. simpl. rewrite list_insert_insert_eq, Hts.
      replace (length ds) with (length ds + 0)%nat at 1 by lia.
      rewrite insert_app_r. simpl. by rewrite <- app_assoc.
    + unfold all_done in *. rewrite forallb_app, Hds. done.
    + rewrite Hg', H1. simpl. by rewrite Hle.
Qed.

(** *** Standard output is write-only *)

Lemma step_blind c c' i :
  blind c c' -> blind (mstep c i) (mstep c' i).
Proof.
  intros (Ht & Hg & Hf & Htr & Hw). unfold blind, step. rewrite <- Ht, <- Hg.
  destruct (tasks c !! i) as [[p|[b|e|l k|cl k]|r]|]; simpl;
    rewrite <- ?Hf, <- ?Htr, <- ?Hw; try done.
  destruct (can_enter ops (gate c)); simpl; done.
Qed.

Lemma run_blind c c' sched :
  blind c c' -> blind (mrun c sched) (mrun c' sched).
Proof.
  revert c c'. induction sched as [|i sched IH]; intros c c' H; [done|].
  simpl. apply IH. by apply step_blind.
Qed.

Lemma exec_blind {A} (p : prog A) s s' :
  trace s = trace s' -> world s = world s' ->
  (exec respond p s).1 = (exec respond p s').1 /\
  trace (exec respond p s).2 = trace (exec respond p s').2 /\
  world (exec respond p s).2 = world (exec respond p s').2.
Proof.
  revert s s'. induction p as [a|e|l k IH|cl k IH]; intros s s' Htr Hw; simpl; auto.
  unfold perform. simpl. rewrite <- Hw, <- Htr. apply IH; simpl; by rewrite <- ?Hw.
Qed.
End MachineFacts3.

Arguments metadata_url_of : simpl never.
Arguments output_file_of : simpl never.

Ltac answers :=
  repeat (simpl;
    match goal with
    | |- forall a : answer, _ => intros [?e|[|?r|?b|?m|?fs]]
    | |- context [lift ?x] => destruct x eqn:?
    | |- context [match ?x with inl _ => _ | inr _ => _ end] => destruct x eqn:?
    | |- context [match ?x with Some _ => _ | None => _ end] => destruct x eqn:?
    | |- context [decide ?P] => destruct (decide P)
    end); simpl; try done.

Section SyncFacts.
Context (json_loads : bytes -> exn + gmap string string).
Implicit Types (self : ApodExporter) (date : string) (index : nat).

Lemma sync_never_raises self date index :
  never_raises (Sync.download_apod json_loads self date index).
Proof. unfold Sync.download_apod. answers. Qed.

Lemma sync_halts self date index :
  halts_within 7 (Sync.download_apod json_loads self date index).
Proof. unfold Sync.download_apod. answers. Qed.
End SyncFacts.

Section AsyncFacts.
Implicit Types (self : Async.Exporter) (date : string) (index : nat).

Lemma async_never_raises self date index :
  never_raises (Async.download_apod self date index).
Proof. unfold Async.download_apod. answers. Qed.

Lemma async_halts self date index :
  halts_within 7 (Async.download_apod self date index).
Proof. unfold Async.download_apod. answers. Qed.
End AsyncFacts.

(** ** The paths of the two workers *)

Lemma reaches_Ret_inv {A} (a : A) h q : reaches (Ret a) h q -> h = [] /\ q = Ret a.
Proof. by inversion 1. Qed.

Lemma reaches_Raise_inv {A} e h (q : prog A) :
  reaches (Raise e) h q -> h = [] /\ q = Raise e.
Proof. by inversion 1. Qed.

Lemma reaches_Print_inv {A} l (k : prog A) h q :
  reaches (Print l k) h q -> (h = [] /\ q = Print l k) \/ reaches k h q.
Proof. inversion 1; subst; auto. Qed.

Lemma reaches_Call_inv {A} c (k : answer -> prog A) h q :
  reaches (Call c k) h q ->
  (h = [] /\ q = Call c k) \/
  exists a h', h = (c, a) :: h' /\ reaches (k a) h' q.
Proof. inversion 1; subst; eauto. Qed.

Ltac walk :=
  repeat match goal with
  | H : reaches (Ret _) _ _ |- _ => apply reaches_Ret_inv in H as [-> ->]
  | H : reaches (Raise _) _ _ |- _ => apply reaches_Raise_inv in H as [-> ->]
  | H : reaches (Print _ _) _ _ |- _ =>
      apply reaches_Print_inv in H as [[-> ->]|H]
  | H : reaches (Call _ _) _ _ |- _ =>
      let a := fresh "a" in let h := fresh "h" in
      apply reaches_Call_inv in H as [[-> ->]|(a & h & -> & H)];
      [|destruct a as [?e|[|?r|?b|?m|?fs]]; simpl in H]
  | H : reaches ?p _ _ |- _ =>
      match p with
      | context [lift ?x] => destruct x eqn:?; simpl in H
      | context [match ?x with Some _ => _ | None => _ end] =>
          destruct x eqn:?; simpl in H
      | context [decide ?P] => destruct (decide P); simpl in H
      end
  end.

Ltac leaf :=
  simpl;
  unfold sync_locate, sync_fetch, async_locate, async_fetch, persisted; simpl;
  repeat match goal with
  | H : _ = inl _ |- _ => rewrite H
  | H : _ = inr _ |- _ => rewrite H
  | H : _ !! _ = Some _ |- _ => rewrite H
  | H : _ !! _ = None |- _ => rewrite H
  | H : ?P |- context [decide ?P] => rewrite (decide_True (P := P)) by exact H
  | H : ¬ ?P |- context [decide ?P] => rewrite (decide_False (P := P)) by exact H
  end; simpl.

(** Every statement about the paths of a worker is checked path by path:
    [walk] enumerates them, the tactics below settle one conjunct each. *)
Ltac leaf_calls :=
  intros [|[|[|[|[|?n]]]]] ? ? ?Hn; simpl in Hn; simplify_eq; leaf; by eauto.
Ltac leaf_length := leaf; first [done | intros; simpl; lia].
Ltac leaf_result := intros ? ?Hb; simplify_eq; leaf; done.
Ltac leaf_raised :=
  let Hex := fresh "Hex" in
  intros Hex; leaf; try done;
  repeat (apply Exists_cons in Hex as [Hex|Hex]; [done|]);
  by apply Exists_nil in Hex.

Section SyncPaths.
Context (json_loads : bytes -> exn + gmap string string).
Implicit Types (self : ApodExporter) (date : string) (index : nat).

Lemma sync_paths self date index h q :
  reaches (Sync.download_apod json_loads self date index) h q ->
  (forall n c a, h !! n = Some (c, a) ->
     sync_stage_call json_loads self date index h n c)
  /\ (sync_locate json_loads h = Failed -> (length h <= 2)%nat)
  /\ (sync_fetch h = Failed -> (length h <= 4)%nat)
  /\ (forall b, q = Ret b -> b = sync_item_ok json_loads h)
  /\ (Exists (fun x => raised x.2 = true) h -> sync_item_ok json_loads h = false).
Proof.
  unfold Sync.download_apod. intros H. simpl in H. walk.
  all: unfold sync_item_ok, sync_fetch, persisted.
  all: split_and!; [leaf_calls|leaf_length|leaf_length|leaf_result|leaf_raised].
Qed.
End SyncPaths.

Section AsyncPaths.
Implicit Types (self : Async.Exporter) (date : string) (index : nat).

Lemma async_paths self date index h q :
  reaches (Async.download_apod self date index) h q ->
  (forall n c a, h !! n = Some (c, a) ->
     async_stage_call (Async.base self) date index h n c)
  /\ (async_locate h = Failed -> (length h <= 2)%nat)
  /\ (async_fetch h = Failed -> (length h <= 4)%nat)
  /\ (forall b, q = Ret b -> b = async_item_ok h)
  /\ (Exists (fun x => raised x.2 = true) h -> async_item_ok h = false).
Proof.
  unfold Async.download_apod. intros H. simpl in H. walk.
  all: unfold async_item_ok, async_fetch, persisted.
  all: split_and!; [leaf_calls|leaf_length|leaf_length|leaf_result|leaf_raised].
Qed.
End AsyncPaths.

(** ** Runs of a batch *)

Section Runs.
Context {W : Type} (respond : W -> call -> answer * W).
Context {G : Type} (ops : gate_ops G).
Implicit Types (c : config W G) (i : nat) (sched : list nat) (s : state W) (g : G).
#[local] Abbreviation mrun := (run respond ops).

Lemma run_item (bodies : list (prog bool)) g s sched i body :
  bodies !! i = Some body ->
  exists t, tasks (mrun (submit_all bodies g s) sched) !! i = Some t /\
    task_ok body (item_calls s (mrun (submit_all bodies g s) sched) i) t.
Proof.
  intros Hb.
  destruct (inv_run respond ops bodies g s sched) as (tr & Htr & H).
  destruct (lookup_lt_is_Some_2 (tasks (mrun (submit_all bodies g s) sched)) i)
    as [t Ht].
  { rewrite run_length. simpl. rewrite length_fmap. by eapply lookup_lt_Some. }
  exists t. split; [done|]. unfold item_calls, since. rewrite Htr.
  rewrite drop_app_length. eauto.
Qed.

Lemma run_no_raise (bodies : list (prog bool)) g s sched i r :
  Forall never_raises bodies ->
  tasks (mrun (submit_all bodies g s) sched) !! i = Some (Done r) ->
  exists b, r = inr b.
Proof.
  intros Hnr Hi.
  destruct (lookup_lt_is_Some_2 bodies i) as [body Hb].
  { apply lookup_lt_Some in Hi. rewrite run_length in Hi. simpl in Hi.
    by rewrite length_fmap in Hi. }
  destruct (run_item bodies g s sched i body Hb) as (t & Ht & Hok).
  rewrite Hi in Ht. simplify_eq. destruct r as [e|b]; [|eauto].
  simpl in Hok. eapply reaches_never_raises in Hok; [done|].
  eapply Forall_lookup_1; eauto.
Qed.

Lemma run_finishes (bodies : list (prog bool)) g s sched i p n :
  Forall never_raises bodies -> Forall (halts_within n) bodies ->
  tasks (mrun (submit_all bodies g s) sched) !! i = Some (Running p) ->
  exists b, tasks (mrun (mrun (submit_all bodies g s) sched) (replicate (S n) i)) !! i
            = Some (Done (inr b)).
Proof.
  intros Hnr Hh Hi.
  destruct (lookup_lt_is_Some_2 bodies i) as [body Hb].
  { apply lookup_lt_Some in Hi. rewrite run_length in Hi. simpl in Hi.
    by rewrite length_fmap in Hi. }
  destruct (run_item bodies g s sched i body Hb) as (t & Ht & Hok).
  rewrite Hi in Ht. simplify_eq. simpl in Hok.
  destruct (run_to_done respond ops _ i p n Hi) as (r & Hts & _ & _ & Hr).
  { eapply reaches_halts; [done|]. eapply Forall_lookup_1; eauto. }
  destruct Hr as [b ->].
  { eapply reaches_never_raises; [done|]. eapply Forall_lookup_1; eauto. }
  exists b. cbn zeta in Hts. rewrite Hts.
  apply list_lookup_insert_eq. by eapply lookup_lt_Some.
Qed.

Lemma run_complete_schedule (bodies : list (prog bool)) g s n :
  Forall (halts_within n) bodies ->
  can_enter ops g = true -> (forall g', leave ops (enter ops g') = g') ->
  all_done (tasks (mrun (submit_all bodies g s)
                        (sequential n 0 (length bodies)))) = true.
Proof.
  intros Hh Hg Hle.
  by apply (sequential_completes respond ops n bodies Hh _ []).
Qed.

(** With a gate that never opens nothing happens. *)
Lemma run_closed (bodies : list (prog bool)) g s sched :
  can_enter ops g = false ->
  mrun (submit_all bodies g s) sched = submit_all bodies g s.
Proof.
  intros Hg. apply (run_ind respond ops (fun c => c = submit_all bodies g s)); [done|].
  intros c i ->. unfold step. simpl. rewrite list_lookup_fmap.
  destruct (bodies !! i); simpl; [|done]. by rewrite Hg.
Qed.
End Runs.

Section Gates.
Context {W : Type} (respond : W -> call -> answer * W).
Implicit Types (sched : list nat) (s : state W).

Lemma pool_bound N (bodies : list (prog bool)) s sched :
  let c := run respond (Sync.pool N) (submit_all bodies 0%nat s) sched in
  gate c = in_flight (tasks c) /\
  (Z.of_nat (in_flight (tasks c)) <= Z.max 0 N)%Z.
Proof.
  cbn zeta. apply run_ind.
  - simpl. rewrite in_flight_queued. split; [done|lia].
  - intros c i [Hg Hb].
    destruct (step_gate respond (Sync.pool N) c i)
      as [[-> ->]|[(Hc & -> & ->)|[-> Hf]]]; simpl in *.
    + done.
    + rewrite Hg. split; [done|]. rewrite Hg in Hc. lia.
    + rewrite Hg, <- Hf. simpl. split; [done|]. lia.
Qed.

Lemma sem_bound N (bodies : list (prog bool)) s sched :
  let c := run respond Async.sem (submit_all bodies N s) sched in
  (Z.of_nat (in_flight (tasks c)) + gate c = N)%Z /\
  (in_flight (tasks c) = 0%nat \/ 0 <= gate c)%Z.
Proof.
  cbn zeta. apply run_ind.
  - simpl. rewrite in_flight_queued. split; [lia|by left].
  - intros c i [Hg Hb].
    destruct (step_gate respond Async.sem c i)
      as [[-> ->]|[(Hc & -> & ->)|[-> Hf]]]; simpl in *.
    + done.
    + split; [lia|]. right. lia.
    + split; [lia|]. right. lia.
Qed.
End Gates.

Section Bodies.
Context (json_loads : bytes -> exn + gmap string string).

Lemma futures_lookup self dates i date :
  dates !! i = Some date ->
  Sync.futures json_loads self dates !! i
  = Some (Sync.download_apod json_loads self date i).
Proof.
  intros H. unfold Sync.futures, enumerate.
  by rewrite list_lookup_fmap, list_lookup_imap, H.
Qed.

Lemma futures_length self dates :
  length (Sync.futures json_loads self dates) = length dates.
Proof. unfold Sync.futures, enumerate. by rewrite length_fmap, length_imap. Qed.

Lemma futures_spec (P : prog bool -> Prop) self dates :
  (forall date i, P (Sync.download_apod json_loads self date i)) ->
  Forall P (Sync.futures json_loads self dates).
Proof.
  intros H. apply Forall_lookup_2. intros i p Hp.
  unfold Sync.futures, enumerate in Hp.
  rewrite list_lookup_fmap, list_lookup_imap in Hp.
  destruct (dates !! i); simplify_eq/=. apply H.
Qed.

Lemma coroutines_lookup self dates i date :
  dates !! i = Some date ->
  Async.coroutines self dates !! i = Some (Async.download_apod self date i).
Proof.
  intros H. unfold Async.coroutines, enumerate.
  by rewrite list_lookup_fmap, list_lookup_imap, H.
Qed.

Lemma coroutines_length self dates :
  length (Async.coroutines self dates) = length dates.
Proof. unfold Async.coroutines, enumerate. by rewrite length_fmap, length_imap. Qed.

Lemma coroutines_spec (P : prog bool -> Prop) self dates :
  (forall date i, P (Async.download_apod self date i)) ->
  Forall P (Async.coroutines self dates).
Proof.
  intros H. apply Forall_lookup_2. intros i p Hp.
  unfold Async.coroutines, enumerate in Hp.
  rewrite list_lookup_fmap, list_lookup_imap in Hp.
  destruct (dates !! i); simplify_eq/=. apply H.
Qed.
End Bodies.

(** ** The batch run: cardinality and the concurrency bound *)

Section Batch.
Context {W : Type} (respond : W -> call -> answer * W).
Context (json_loads : bytes -> exn + gmap string string).
Implicit Types (self : ApodExporter) (x : Async.Exporter)
  (dates : list string) (sched : list nat) (s : state W).

Lemma sync_done self dates N sched s i r :
  tasks (Sync.batch respond json_loads self dates N sched s) !! i = Some (Done r) ->
  exists b, r = inr b.
Proof.
  apply run_no_raise, futures_spec. intros. apply sync_never_raises.
Qed.

Lemma async_done x dates sched s i r :
  tasks (Async.batch respond x dates sched s) !! i = Some (Done r) ->
  exists b, r = inr b.
Proof.
  apply run_no_raise, coroutines_spec. intros. apply async_never_raises.
Qed.

Lemma sync_tasks_length self dates N sched s :
  length (tasks (Sync.batch respond json_loads self dates N sched s)) = length dates.
Proof.
  unfold Sync.batch. rewrite run_length. simpl.
  by rewrite length_fmap, futures_length.
Qed.

Lemma async_tasks_length x dates sched s :
  length (tasks (Async.batch respond x dates sched s)) = length dates.
Proof.
  unfold Async.batch. rewrite run_length. simpl.
  by rewrite length_fmap, coroutines_length.
Qed.

Lemma sync_finished self dates N sched s :
  all_done (tasks (Sync.batch respond json_loads self dates N sched s)) = true ->
  finished (Sync.batch respond json_loads self dates N sched s)
    ≡ₚ seq 0 (length dates).
Proof.
  intros H. rewrite <- (sync_tasks_length self dates N sched s).
  apply fin_inv_all_done; [apply fin_inv_run|done].
Qed.

Lemma async_gather x dates sched s :
  Async.gather (Async.batch respond x dates sched s)
  = inr (Async.results_of (Async.batch respond x dates sched s)).
Proof.
  unfold Async.gather, Async.first_raised.
  set (c := Async.batch respond x dates sched s).
  assert (H : omap (fun i => match tasks c !! i with
                             | Some (Done (inl e)) => Some e
                             | _ => None
                             end) (finished c) = []).
  { induction (finished c) as [|i l IH]; [done|]. simpl.
    destruct (tasks c !! i) as [[| |[e|b]]|] eqn:E; try done.
    by destruct (async_done x dates sched s i (inl e) E). }
  by rewrite H.
Qed.

(** With a worker in the pool, or a permit in the semaphore, some schedule
    completes every item. *)
Lemma sync_completes self dates N s :
  (1 <= N)%Z ->
  exists sched,
    all_done (tasks (Sync.batch respond json_loads self dates N sched s)) = true.
Proof.
  intros HN. eexists. unfold Sync.batch.
  apply (run_complete_schedule respond (Sync.pool N) _ 0%nat s 7).
  - apply futures_spec. intros. apply sync_halts.
  - simpl. apply Z.ltb_lt. lia.
  - done.
Qed.

Lemma async_completes x dates s :
  (1 <= Async.semaphore x)%Z ->
  exists sched,
    all_done (tasks (Async.batch respond x dates sched s)) = true.
Proof.
  intros HN. eexists. unfold Async.batch.
  apply (run_complete_schedule respond Async.sem _ _ s 7).
  - apply coroutines_spec. intros. apply async_halts.
  - simpl. apply Z.ltb_lt. lia.
  - intros g. simpl. lia.
Qed.

(** C1.  For every key sequence of length K a completed batch run has
    exactly K outcomes, one per index 0..K-1, however many items failed:
    in the thread-pool exporter [results] has the length of [dates] and
    the futures it was filled from are the indices 0..K-1 in some order;
    in the asyncio exporter [gather] returns a list of the length of
    [dates].  With a concurrency limit of at least 1 some schedule
    completes the run. *)
Theorem batch_cardinality self x dates s :
  (forall N sched,
     all_done (tasks (Sync.batch respond json_loads self dates N sched s)) = true ->
     length (Sync.results_of dates
               (Sync.batch respond json_loads self dates N sched s))
     = length dates /\
     finished (Sync.batch respond json_loads self dates N sched s)
       ≡ₚ seq 0 (length dates))
  /\ (forall sched,
        all_done (tasks (Async.batch respond x dates sched s)) = true ->
        exists results,
          Async.gather (Async.batch respond x dates sched s) = inr results /\
          length results = length dates)
  /\ (forall N, (1 <= N)%Z -> exists sched,
        all_done (tasks (Sync.batch respond json_loads self dates N sched s)) = true)
  /\ ((1 <= Async.semaphore x)%Z -> exists sched,
        all_done (tasks (Async.batch respond x dates sched s)) = true).
Proof.
  split_and!.
  - intros N sched Hall. pose proof (sync_finished _ _ _ _ _ Hall) as Hp.
    split; [|done]. unfold Sync.results_of.
    by rewrite length_fmap, Hp, length_seq.
  - intros sched Hall. eexists. split; [apply async_gather|].
    unfold Async.results_of. by rewrite length_fmap, async_tasks_length.
  - intros N HN. by apply sync_completes.
  - intros HN. by apply async_completes.
Qed.

(** C2.  For every key sequence and every limit N >= 1, at every point of
    every run at most N items are inside their worker body, and a queued
    item enters as soon as fewer than N are. *)
Theorem concurrency_bound self x dates sched s :
  (forall N, (1 <= N)%Z ->
     (Z.of_nat (in_flight (tasks (Sync.batch respond json_loads self dates N sched s)))
      <= N)%Z /\
     forall i p,
       tasks (Sync.batch respond json_loads self dates N sched s) !! i
         = Some (Queued p) ->
       (Z.of_nat (in_flight (tasks (Sync.batch respond json_loads self dates N sched s)))
        < N)%Z ->
       tasks (step respond (Sync.pool N)
                (Sync.batch respond json_loads self dates N sched s) i) !! i
         = Some (Running p))
  /\ ((1 <= Async.semaphore x)%Z ->
      (Z.of_nat (in_flight (tasks (Async.batch respond x dates sched s)))
       <= Async.semaphore x)%Z /\
      forall i p,
        tasks (Async.batch respond x dates sched s) !! i = Some (Queued p) ->
        (Z.of_nat (in_flight (tasks (Async.batch respond x dates sched s)))
         < Async.semaphore x)%Z ->
        tasks (step respond Async.sem (Async.batch respond x dates sched s) i) !! i
          = Some (Running p)).
Proof.
  split.
  - intros N HN.
    destruct (pool_bound respond N (Sync.futures json_loads self dates) s sched)
      as [Hg Hb]. fold (Sync.batch respond json_loads self dates N sched s) in *.
    split; [lia|]. intros i p Hi Hlt. apply step_enters; [done|].
    simpl. rewrite Hg. by apply Z.ltb_lt.
  - intros HN.
    destruct (sem_bound respond (Async.semaphore x) (Async.coroutines x dates) s sched)
      as [Hg Hb]. fold (Async.batch respond x dates sched s) in *.
    split; [lia|]. intros i p Hi Hlt. apply step_enters; [done|].
    simpl. apply Z.ltb_lt. lia.
Qed.
End Batch.

(** ** The worker inside a batch run *)

Section Items.
Context {W : Type} (respond : W -> call -> answer * W).
Context (json_loads : bytes -> exn + gmap string string).
Implicit Types (self : ApodExporter) (x : Async.Exporter)
  (dates : list string) (sched : list nat) (s : state W).

Lemma sync_item self dates N sched s i date :
  dates !! i = Some date ->
  exists t,
    tasks (Sync.batch respond json_loads self dates N sched s) !! i = Some t /\
    task_ok (Sync.download_apod json_loads self date i)
      (item_calls s (Sync.batch respond json_loads self dates N sched s) i) t.
Proof. intros H. by apply run_item, futures_lookup. Qed.

Lemma async_item x dates sched s i date :
  dates !! i = Some date ->
  exists t,
    tasks (Async.batch respond x dates sched s) !! i = Some t /\
    task_ok (Async.download_apod x date i)
      (item_calls s (Async.batch respond x dates sched s) i) t.
Proof. intros H. by apply run_item, coroutines_lookup. Qed.

Lemma sync_item_reaches self dates N sched s i date :
  dates !! i = Some date ->
  exists q, reaches (Sync.download_apod json_loads self date i)
    (item_calls s (Sync.batch respond json_loads self dates N sched s) i) q /\
    forall r, tasks (Sync.batch respond json_loads self dates N sched s) !! i
              = Some (Done r) ->
              exists b, r = inr b /\ q = Ret b.
Proof.
  intros Hd. destruct (sync_item self dates N sched s i date Hd) as (t & Ht & Hok).
  destruct t as [p|p|[e|b]]; simpl in Hok.
  - destruct Hok as [-> ->]. eexists. split; [apply reaches_here|].
    intros r Hr. congruence.
  - eexists. split; [done|]. intros r Hr. congruence.
  - by destruct (sync_done respond json_loads self dates N sched s i (inl e) Ht).
  - eexists. split; [done|]. intros r Hr. rewrite Ht in Hr. simplify_eq. eauto.
Qed.

Lemma async_item_reaches x dates sched s i date :
  dates !! i = Some date ->
  exists q, reaches (Async.download_apod x date i)
    (item_calls s (Async.batch respond x dates sched s) i) q /\
    forall r, tasks (Async.batch respond x dates sched s) !! i = Some (Done r) ->
              exists b, r = inr b /\ q = Ret b.
Proof.
  intros Hd. destruct (async_item x dates sched s i date Hd) as (t & Ht & Hok).
  destruct t as [p|p|[e|b]]; simpl in Hok.
  - destruct Hok as [-> ->]. eexists. split; [apply reaches_here|].
    intros r Hr. congruence.
  - eexists. split; [done|]. intros r Hr. congruence.
  - by destruct (async_done respond x dates sched s i (inl e) Ht).
  - eexists. split; [done|]. intros r Hr. rewrite Ht in Hr. simplify_eq. eauto.
Qed.

(** The result of a finished item is a function of the answers to its own
    calls. *)
Lemma sync_result self dates N sched s i r :
  tasks (Sync.batch respond json_loads self dates N sched s) !! i = Some (Done r) ->
  r = inr (sync_item_ok json_loads
             (item_calls s (Sync.batch respond json_loads self dates N sched s) i)).
Proof.
  intros Hi.
  destruct (lookup_lt_is_Some_2 dates i) as [date Hd].
  { apply lookup_lt_Some in Hi. by rewrite sync_tasks_length in Hi. }
  destruct (sync_item_reaches self dates N sched s i date Hd) as (q & Hq & Hr).
  destruct (Hr r Hi) as (b & -> & ->).
  apply sync_paths in Hq as (_ & _ & _ & Hb & _). f_equal. by apply Hb.
Qed.

Lemma async_result x dates sched s i r :
  tasks (Async.batch respond x dates sched s) !! i = Some (Done r) ->
  r = inr (async_item_ok (item_calls s (Async.batch respond x dates sched s) i)).
Proof.
  intros Hi.
  destruct (lookup_lt_is_Some_2 dates i) as [date Hd].
  { apply lookup_lt_Some in Hi. by rewrite async_tasks_length in Hi. }
  destruct (async_item_reaches x dates sched s i date Hd) as (q & Hq & Hr).
  destruct (Hr r Hi) as (b & -> & ->).
  apply async_paths in Hq as (_ & _ & _ & Hb & _). f_equal. by apply Hb.
Qed.

(** C4.  For every item of a batch the worker ends with a result and
    never raises: a worker that is inside its body is over after at most
    eight of its own steps, whatever the collaborators answer; its result
    is a boolean, never an exception; it is [True] exactly when the
    locate, fetch and persist steps of this very item succeeded, and
    [False] as soon as one of its calls raised.  The result of an item
    therefore depends on no other item. *)
Theorem worker_isolation self x dates sched s i date :
  dates !! i = Some date ->
  (forall N,
     (forall r,
        tasks (Sync.batch respond json_loads self dates N sched s) !! i
          = Some (Done r) ->
        r = inr (sync_item_ok json_loads
              (item_calls s (Sync.batch respond json_loads self dates N sched s) i)))
     /\ (Exists (fun ca => raised ca.2 = true)
           (item_calls s (Sync.batch respond json_loads self dates N sched s) i) ->
         sync_item_ok json_loads
           (item_calls s (Sync.batch respond json_loads self dates N sched s) i)
         = false)
     /\ (forall p,
           tasks (Sync.batch respond json_loads self dates N sched s) !! i
             = Some (Running p) ->
           exists b,
             tasks (run respond (Sync.pool N)
                      (Sync.batch respond json_loads self dates N sched s)
                      (replicate 8 i)) !! i
             = Some (Done (inr b))))
  /\ ((forall r,
         tasks (Async.batch respond x dates sched s) !! i = Some (Done r) ->
         r = inr (async_item_ok
                    (item_calls s (Async.batch respond x dates sched s) i)))
      /\ (Exists (fun ca => raised ca.2 = true)
            (item_calls s (Async.batch respond x dates sched s) i) ->
          async_item_ok (item_calls s (Async.batch respond x dates sched s) i)
          = false)
      /\ (forall p,
            tasks (Async.batch respond x dates sched s) !! i = Some (Running p) ->
            exists b,
              tasks (run respond Async.sem (Async.batch respond x dates sched s)
                       (replicate 8 i)) !! i
              = Some (Done (inr b)))).
Proof.
  intros Hd. split; [intros N|]; split_and!.
  - apply sync_result.
  - destruct (sync_item_reaches self dates N sched s i date Hd) as (q & Hq & _).
    by apply sync_paths in Hq as (_ & _ & _ & _ & H).
  - intros p Hp. unfold Sync.batch in *. eapply run_finishes; [| |done].
    + apply futures_spec. intros. apply sync_never_raises.
    + apply futures_spec. intros. apply sync_halts.
  - apply async_result.
  - destruct (async_item_reaches x dates sched s i date Hd) as (q & Hq & _).
    by apply async_paths in Hq as (_ & _ & _ & _ & H).
  - intros p Hp. unfold Async.batch in *. eapply run_finishes; [| |done].
    + apply coroutines_spec. intros. apply async_never_raises.
    + apply coroutines_spec. intros. apply async_halts.
Qed.

(** C8.  The steps of a worker are strictly sequenced with early exit.
    The calls of an item are, in this order, the two of the locate step,
    the two of the fetch step (made only once the locate step has
    produced the URL, and on that URL) and the file write (made only once
    the fetch step has produced the image, and with it).  When the locate
    step fails, by an error or by metadata without the URL field, the item
    makes no call beyond the locate step and its result is [False]; when
    the fetch step fails it makes no call beyond the fetch step and its
    result is [False]. *)
Theorem early_exit self x dates sched s i date :
  dates !! i = Some date ->
  (forall N,
     (forall n cl a,
        item_calls s (Sync.batch respond json_loads self dates N sched s) i !! n
          = Some (cl, a) ->
        sync_stage_call json_loads self date i
          (item_calls s (Sync.batch respond json_loads self dates N sched s) i)
          n cl)
     /\ (sync_locate json_loads
           (item_calls s (Sync.batch respond json_loads self dates N sched s) i)
         = Failed ->
         (length (item_calls s
                    (Sync.batch respond json_loads self dates N sched s) i)
          <= 2)%nat /\
         forall r,
           tasks (Sync.batch respond json_loads self dates N sched s) !! i
             = Some (Done r) -> r = inr false)
     /\ (sync_fetch
           (item_calls s (Sync.batch respond json_loads self dates N sched s) i)
         = Failed ->
         (length (item_calls s
                    (Sync.batch respond json_loads self dates N sched s) i)
          <= 4)%nat /\
         forall r,
           tasks (Sync.batch respond json_loads self dates N sched s) !! i
             = Some (Done r) -> r = inr false))
  /\ ((forall n cl a,
         item_calls s (Async.batch respond x dates sched s) i !! n = Some (cl, a) ->
         async_stage_call (Async.base x) date i
           (item_calls s (Async.batch respond x dates sched s) i) n cl)
      /\ (async_locate (item_calls s (Async.batch respond x dates sched s) i)
          = Failed ->
          (length (item_calls s (Async.batch respond x dates sched s) i) <= 2)%nat /\
          forall r,
            tasks (Async.batch respond x dates sched s) !! i = Some (Done r) ->
            r = inr false)
      /\ (async_fetch (item_calls s (Async.batch respond x dates sched s) i)
          = Failed ->
          (length (item_calls s (Async.batch respond x dates sched s) i) <= 4)%nat /\
          forall r,
            tasks (Async.batch respond x dates sched s) !! i = Some (Done r) ->
            r = inr false)).
Proof.
  intros Hd. split; [intros N|].
  - destruct (sync_item_reaches self dates N sched s i date Hd) as (q & Hq & _).
    apply sync_paths in Hq as (Hc & Hl & Hf & _ & _).
    split_and!; [done| |].
    + intros H. split; [auto|]. intros r Hr.
      rewrite (sync_result _ _ _ _ _ _ _ Hr). unfold sync_item_ok. by rewrite H.
    + intros H. split; [auto|]. intros r Hr.
      rewrite (sync_result _ _ _ _ _ _ _ Hr). unfold sync_item_ok. rewrite H.
      by rewrite andb_false_r.
  - destruct (async_item_reaches x dates sched s i date Hd) as (q & Hq & _).
    apply async_paths in Hq as (Hc & Hl & Hf & _ & _).
    split_and!; [done| |].
    + intros H. split; [auto|]. intros r Hr.
      rewrite (async_result _ _ _ _ _ _ Hr). unfold async_item_ok. by rewrite H.
    + intros H. split; [auto|]. intros r Hr.
      rewrite (async_result _ _ _ _ _ _ Hr). unfold async_item_ok. rewrite H.
      by rewrite andb_false_r.
Qed.

(** C6, as amended.  In the thread-pool exporter every locate and fetch
    request of an item ([urlopen]) is made with [timeout=30].  In both
    exporters a timeout raised by any call of an item makes the result of
    that item [False], and the result of every other item is still the one
    its own calls determine. *)
Theorem request_timeouts self x dates sched s i date :
  dates !! i = Some date ->
  (forall N,
     (forall url t a,
        (Urlopen url t, a)
          ∈ item_calls s (Sync.batch respond json_loads self dates N sched s) i ->
        t = 30%Z)
     /\ (forall cl r,
           (cl, inl TimeoutError)
             ∈ item_calls s (Sync.batch respond json_loads self dates N sched s) i ->
           tasks (Sync.batch respond json_loads self dates N sched s) !! i
             = Some (Done r) ->
           r = inr false)
     /\ (forall j r, j <> i ->
           tasks (Sync.batch respond json_loads self dates N sched s) !! j
             = Some (Done r) ->
           r = inr (sync_item_ok json_loads
                 (item_calls s
                    (Sync.batch respond json_loads self dates N sched s) j))))
  /\ ((forall cl r,
         (cl, inl TimeoutError)
           ∈ item_calls s (Async.batch respond x dates sched s) i ->
         tasks (Async.batch respond x dates sched s) !! i = Some (Done r) ->
         r = inr false)
      /\ (forall j r, j <> i ->
            tasks (Async.batch respond x dates sched s) !! j = Some (Done r) ->
            r = inr (async_item_ok
                       (item_calls s (Async.batch respond x dates sched s) j)))).
Proof.
  intros Hd. split; [intros N|].
  - destruct (sync_item_reaches self dates N sched s i date Hd) as (q & Hq & _).
    apply sync_paths in Hq as (Hc & _ & _ & _ & Hx).
    split_and!.
    + intros url t a Hin. apply list_elem_of_lookup_1 in Hin as [n Hn].
      specialize (Hc n _ _ Hn).
      destruct n as [|[|[|[|[|n]]]]]; simpl in Hc; try done.
      * by simplify_eq.
      * by destruct Hc as [? ?].
      * destruct Hc as (? & _ & ?). by simplify_eq.
      * by destruct Hc as (? & _ & ?).
      * by destruct Hc as (? & _ & ?).
    + intros cl r Hin Hr. rewrite (sync_result _ _ _ _ _ _ _ Hr). f_equal.
      apply Hx. apply Exists_exists. by exists (cl, inl TimeoutError).
    + intros j r _. apply sync_result.
  - destruct (async_item_reaches x dates sched s i date Hd) as (q & Hq & _).
    apply async_paths in Hq as (_ & _ & _ & _ & Hx).
    split.
    + intros cl r Hin Hr. rewrite (async_result _ _ _ _ _ _ Hr). f_equal.
      apply Hx. apply Exists_exists. by exists (cl, inl TimeoutError).
    + intros j r _. apply async_result.
Qed.
End Items.

(** ** The batch run as a whole *)

Lemma all_true (bs : list bool) : all bs = true <-> forall b, b ∈ bs -> b = true.
Proof.
  unfold all. rewrite forallb_forall. split.
  - intros H b Hb. apply (H b). by apply list_elem_of_In.
  - intros H b Hb. apply H. by apply list_elem_of_In.
Qed.

Section WholeRun.
Context {W : Type} (respond : W -> call -> answer * W).
Context (json_loads : bytes -> exn + gmap string string).
Implicit Types (self : ApodExporter) (x : Async.Exporter)
  (dates : list string) (sched : list nat) (s : state W).

Lemma sync_outcome self dates N sched s i :
  all_done (tasks (Sync.batch respond json_loads self dates N sched s)) = true ->
  (i < length dates)%nat ->
  exists b,
    tasks (Sync.batch respond json_loads self dates N sched s) !! i
      = Some (Done (inr b)) /\
    outcome_at (tasks (Sync.batch respond json_loads self dates N sched s)) i
      = Some b /\
    (Sync.future_result dates
       (tasks (Sync.batch respond json_loads self dates N sched s)) i).1 = b.
Proof.
  intros Hall Hi.
  destruct (proj1 (all_done_lookup _) Hall i) as [r Hr].
  { by rewrite sync_tasks_length. }
  destruct (sync_done respond json_loads self dates N sched s i r Hr) as [b ->].
  exists b. unfold outcome_at, Sync.future_result. by rewrite Hr.
Qed.

Lemma async_outcome x dates sched s i :
  all_done (tasks (Async.batch respond x dates sched s)) = true ->
  (i < length dates)%nat ->
  exists b,
    tasks (Async.batch respond x dates sched s) !! i = Some (Done (inr b)) /\
    outcome_at (tasks (Async.batch respond x dates sched s)) i = Some b /\
    Async.results_of (Async.batch respond x dates sched s) !! i = Some b.
Proof.
  intros Hall Hi.
  destruct (proj1 (all_done_lookup _) Hall i) as [r Hr].
  { by rewrite async_tasks_length. }
  destruct (async_done respond x dates sched s i r Hr) as [b ->].
  exists b. unfold outcome_at, Async.results_of.
  by rewrite list_lookup_fmap, Hr.
Qed.

Lemma sync_all self dates N sched s :
  all_done (tasks (Sync.batch respond json_loads self dates N sched s)) = true ->
  all (Sync.results_of dates (Sync.batch respond json_loads self dates N sched s))
    = true <->
  forall i, (i < length dates)%nat ->
    outcome_at (tasks (Sync.batch respond json_loads self dates N sched s)) i
      = Some true.
Proof.
  intros Hall. pose proof (sync_finished respond json_loads _ _ _ _ _ Hall) as Hp.
  rewrite all_true. unfold Sync.results_of. split.
  - intros H i Hi.
    destruct (sync_outcome self dates N sched s i Hall Hi) as (b & _ & -> & Hb).
    f_equal. apply H. apply list_elem_of_fmap. exists i. split; [done|].
    rewrite Hp. apply elem_of_seq. lia.
  - intros H b Hb. apply list_elem_of_fmap in Hb as (i & -> & Hi).
    rewrite Hp in Hi. apply elem_of_seq in Hi.
    destruct (sync_outcome self dates N sched s i Hall) as (b & _ & Ho & ->); [lia|].
    rewrite H in Ho by lia. by simplify_eq.
Qed.

Lemma async_all x dates sched s :
  all_done (tasks (Async.batch respond x dates sched s)) = true ->
  all (Async.results_of (Async.batch respond x dates sched s)) = true <->
  forall i, (i < length dates)%nat ->
    outcome_at (tasks (Async.batch respond x dates sched s)) i = Some true.
Proof.
  intros Hall. rewrite all_true. split.
  - intros H i Hi.
    destruct (async_outcome x dates sched s i Hall Hi) as (b & _ & -> & Hb).
    f_equal. apply H. by eapply list_elem_of_lookup_2.
  - intros H b Hb. apply list_elem_of_lookup_1 in Hb as [i Hi].
    assert (Hlt : (i < length dates)%nat).
    { apply lookup_lt_Some in Hi. unfold Async.results_of in Hi.
      by rewrite length_fmap, async_tasks_length in Hi. }
    destruct (async_outcome x dates sched s i Hall Hlt) as (b' & _ & Ho & Hb').
    rewrite H in Ho by done. congruence.
Qed.

(** What [export] returns when it returns a value. *)
Lemma sync_export_returns self dates sched s b :
  (Sync.export respond json_loads self dates sched s).1 = Some (inr b) ->
  all_done (tasks (Sync.batch respond json_loads self dates
                     (max_concurrent_downloads self) sched
                     (emit_all (banner self dates) s))) = true /\
  b = all (Sync.results_of dates
             (Sync.batch respond json_loads self dates
                (max_concurrent_downloads self) sched
                (emit_all (banner self dates) s))).
Proof.
  unfold Sync.export, Sync.ThreadPoolExecutor. cbn zeta.
  destruct (max_concurrent_downloads self <=? 0)%Z; [done|].
  destruct (all_done _) eqn:Hall; [|done].
  destruct (exec respond report _) as [[e|u] s']; simpl; [done|].
  intros H. by simplify_eq.
Qed.

Lemma async_export_returns x dates sched s b :
  (Async.export respond x dates sched s).1 = Some (inr b) ->
  all_done (tasks (Async.batch respond x dates sched
                     (emit_all (banner (Async.base x) dates) s))) = true /\
  b = all (Async.results_of
             (Async.batch respond x dates sched
                (emit_all (banner (Async.base x) dates) s))).
Proof.
  unfold Async.export. cbn zeta.
  destruct (all_done _) eqn:Hall; [|done].
  rewrite async_gather.
  destruct (exec respond report _) as [[e|u] s']; simpl; [done|].
  intros H. by simplify_eq.
Qed.

(** [export] returns or raises once every item has completed. *)
Lemma sync_export_total self dates sched s :
  all_done (tasks (Sync.batch respond json_loads self dates
                     (max_concurrent_downloads self) sched
                     (emit_all (banner self dates) s))) = true ->
  exists r, (Sync.export respond json_loads self dates sched s).1 = Some r.
Proof.
  intros Hall. unfold Sync.export, Sync.ThreadPoolExecutor. cbn zeta.
  destruct (max_concurrent_downloads self <=? 0)%Z; [by eexists|].
  rewrite Hall.
  destruct (exec respond report _) as [[e|u] s']; by eexists.
Qed.

Lemma async_export_total x dates sched s :
  all_done (tasks (Async.batch respond x dates sched
                     (emit_all (banner (Async.base x) dates) s))) = true ->
  exists r, (Async.export respond x dates sched s).1 = Some r.
Proof.
  intros Hall. unfold Async.export. cbn zeta. rewrite Hall, async_gather.
  destruct (exec respond report _) as [[e|u] s']; by eexists.
Qed.

(** C7.  Whenever [export] returns a value, it is [True] if and only if
    the result of every item is [True]; for the empty key sequence the
    list of results is empty and the value returned is [True].  With a
    limit of at least 1 some schedule makes [export] return or raise, and
    on the empty key sequence the asyncio exporter does so on every
    schedule. *)
Theorem aggregate_flag self x dates sched s b :
  ((Sync.export respond json_loads self dates sched s).1 = Some (inr b) ->
     (b = true <->
      forall i, (i < length dates)%nat ->
        outcome_at
          (tasks (Sync.batch respond json_loads self dates
                    (max_concurrent_downloads self) sched
                    (emit_all (banner self dates) s))) i = Some true)
     /\ (dates = [] ->
         Sync.results_of dates
           (Sync.batch respond json_loads self dates
              (max_concurrent_downloads self) sched
              (emit_all (banner self dates) s)) = [] /\ b = true))
  /\ ((Async.export respond x dates sched s).1 = Some (inr b) ->
      (b = true <->
       forall i, (i < length dates)%nat ->
         outcome_at
           (tasks (Async.batch respond x dates sched
                     (emit_all (banner (Async.base x) dates) s))) i = Some true)
      /\ (dates = [] ->
          Async.results_of
            (Async.batch respond x dates sched
               (emit_all (banner (Async.base x) dates) s)) = [] /\ b = true))
  /\ ((1 <= max_concurrent_downloads self)%Z ->
      exists sched' r,
        (Sync.export respond json_loads self dates sched' s).1 = Some r)
  /\ ((1 <= Async.semaphore x)%Z ->
      exists sched' r, (Async.export respond x dates sched' s).1 = Some r)
  /\ (exists r, (Async.export respond x [] sched s).1 = Some r).
Proof.
  split_and!.
  - intros H. apply sync_export_returns in H as [Hall ->].
    split; [by apply sync_all|].
    intros ->.
    assert (Hf : finished (Sync.batch respond json_loads self []
              (max_concurrent_downloads self) sched
              (emit_all (banner self []) s)) = []).
    { apply Permutation_nil_r. by rewrite (sync_finished _ _ _ _ _ _ _ Hall). }
    unfold Sync.results_of. by rewrite Hf.
  - intros H. apply async_export_returns in H as [Hall ->].
    split; [by apply async_all|].
    intros ->.
    assert (Hf : tasks (Async.batch respond x [] sched
              (emit_all (banner (Async.base x) []) s)) = []).
    { apply nil_length_inv. by rewrite async_tasks_length. }
    unfold Async.results_of. by rewrite Hf.
  - intros HN.
    destruct (sync_completes respond json_loads self dates _
                (emit_all (banner self dates) s) HN) as [sched' Hall].
    exists sched'.
    by apply sync_export_total.
  - intros HN.
    destruct (async_completes respond x dates
                (emit_all (banner (Async.base x) dates) s) HN) as [sched' Hall].
    exists sched'.
    by apply async_export_total.
  - apply async_export_total.
    apply all_done_lookup. intros i Hi.
    rewrite async_tasks_length in Hi. simpl in Hi. lia.
Qed.

(** C5, as amended.  In the asyncio exporter the list of results is in the
    order of the input: its i-th entry is the result of item i.  In the
    thread-pool exporter it is in completion order: its k-th entry is the
    result of the item that completed k-th, and the completion order is a
    permutation of the indices 0..K-1. *)
Theorem results_order self x dates sched s :
  (forall N,
     all_done (tasks (Sync.batch respond json_loads self dates N sched s)) = true ->
     finished (Sync.batch respond json_loads self dates N sched s)
       ≡ₚ seq 0 (length dates) /\
     forall k i,
       finished (Sync.batch respond json_loads self dates N sched s) !! k = Some i ->
       Sync.results_of dates (Sync.batch respond json_loads self dates N sched s) !! k
       = outcome_at (tasks (Sync.batch respond json_loads self dates N sched s)) i)
  /\ (all_done (tasks (Async.batch respond x dates sched s)) = true ->
      exists results,
        Async.gather (Async.batch respond x dates sched s) = inr results /\
        forall i, (i < length dates)%nat ->
          results !! i
          = outcome_at (tasks (Async.batch respond x dates sched s)) i).
Proof.
  split.
  - intros N Hall. pose proof (sync_finished respond json_loads _ _ _ _ _ Hall) as Hp.
    split; [done|]. intros k i Hk.
    assert (Hi : (i < length dates)%nat).
    { apply list_elem_of_lookup_2 in Hk. rewrite Hp in Hk.
      apply elem_of_seq in Hk. lia. }
    destruct (sync_outcome self dates N sched s i Hall Hi) as (b & _ & -> & Hb).
    unfold Sync.results_of. by rewrite list_lookup_fmap, Hk, <- Hb.
  - intros Hall. eexists. split; [apply async_gather|]. intros i Hi.
    by destruct (async_outcome x dates sched s i Hall Hi) as (b & _ & -> & ->).
Qed.

(** C3, as amended.  The thread-pool exporter with a limit of 0 or less
    fails in [export] with the [ValueError] of the pool constructor,
    after the banner and before any work is submitted: no collaborator is
    called.  The asyncio exporter with a negative limit fails in its
    constructor with the [ValueError] of the semaphore; with a limit of 0
    it is constructed, no item ever enters its worker body, no
    collaborator is called, and [export] does not return for a non-empty
    key sequence. *)
Theorem invalid_limit self key mcd mce dates sched s :
  ((max_concurrent_downloads self <= 0)%Z ->
     Sync.export respond json_loads self dates sched s
     = (Some (inl ValueError), emit_all (banner self dates) s))
  /\ ((mcd < 0)%Z -> Async.new key mcd mce = inl ValueError)
  /\ (forall x, Async.new key 0 mce = inr x ->
        trace (st (Async.batch respond x dates sched s)) = trace s /\
        in_flight (tasks (Async.batch respond x dates sched s)) = 0%nat /\
        (dates <> [] -> (Async.export respond x dates sched s).1 = None)).
Proof.
  split_and!.
  - intros H. unfold Sync.export, Sync.ThreadPoolExecutor. cbn zeta.
    by rewrite (proj2 (Z.leb_le _ _) H).
  - intros H. unfold Async.new, Async.Semaphore.
    by rewrite (proj2 (Z.ltb_lt _ _) H).
  - intros x Hx.
    assert (Hs : Async.semaphore x = 0%Z).
    { unfold Async.new, Async.Semaphore in Hx. simpl in Hx. by simplify_eq. }
    assert (Hc : forall s', Async.batch respond x dates sched s'
              = submit_all (Async.coroutines x dates) 0%Z s').
    { intros s'. unfold Async.batch. rewrite Hs. by apply run_closed. }
    split_and!.
    + by rewrite Hc.
    + rewrite Hc. simpl. apply in_flight_queued.
    + intros Hne. unfold Async.export. cbn zeta. rewrite Hc. simpl.
      destruct dates as [|d dates]; [done|]. done.
Qed.

(** C9.  Whenever [export] returns, [main] ends the process, with exit
    status 0 when the value returned is [True] and with status 1, hence
    not 0, in every other case: when it is [False] and when an exception
    escapes [export]. *)
Theorem exit_status_of_main argv env sched s :
  (forall r,
     (Sync.export respond json_loads
        {| api_key := {| key := getenv_key env |};
           max_concurrent_downloads := 3;
           max_concurrent_exports := 3 |}
        (dates_of_argv argv) sched s).1 = Some r ->
     exists code,
       (Sync.main respond json_loads argv env sched s).1 = Some code /\
       (r = inr true -> code = 0%Z) /\
       (r <> inr true -> code = 1%Z))
  /\ (exists x,
        Async.new {| key := getenv_key env |} 3 3 = inr x /\
        forall r,
          (Async.export respond x (dates_of_argv argv) sched s).1 = Some r ->
          exists code,
            (Async.main respond argv env sched s).1 = Some code /\
            (r = inr true -> code = 0%Z) /\
            (r <> inr true -> code = 1%Z)).
Proof.
  split.
  - intros r Hr. unfold Sync.main. cbn zeta. cbn [fst]. rewrite Hr.
    exists (exit_status r). split; [done|].
    destruct r as [e|[|]]; simpl; split; congruence.
  - eexists. split; [reflexivity|]. intros r Hr.
    unfold Async.main. cbn zeta.
    change (Async.new {| key := getenv_key env |} 3 3) with
      (inr (B := Async.Exporter) (A := exn)
         {| Async.base := {| api_key := {| key := getenv_key env |};
                             max_concurrent_downloads := 3;
                             max_concurrent_exports := 3 |};
            Async.semaphore := 3 |}).
    cbn [fst]. rewrite Hr.
    exists (exit_status r). split; [done|].
    destruct r as [e|[|]]; simpl; split; congruence.
Qed.
End WholeRun.

(** ** The export-concurrency parameter *)

Section Unused.
Context {W : Type} (respond : W -> call -> answer * W).
Context (json_loads : bytes -> exn + gmap string string).
Implicit Types (self : ApodExporter) (x : Async.Exporter)
  (dates : list string) (sched : list nat) (s : state W).

Lemma futures_with_exports m self dates :
  Sync.futures json_loads (with_exports m self) dates
  = Sync.futures json_loads self dates.
Proof. done. Qed.

Lemma coroutines_with_exports m x dates :
  Async.coroutines (async_with_exports m x) dates = Async.coroutines x dates.
Proof. done. Qed.

(** C10.  Two runs that differ only in [max_concurrent_exports] return
    the same value, make the same collaborator calls with the same
    answers, hence write the same files, and leave the world in the same
    state; the constructor of the asyncio exporter accepts or refuses both
    alike. *)
Theorem export_limit_unused m self x key mcd mce dates sched s :
  ((Sync.export respond json_loads (with_exports m self) dates sched s).1
   = (Sync.export respond json_loads self dates sched s).1
   /\ trace (Sync.export respond json_loads (with_exports m self) dates sched s).2
      = trace (Sync.export respond json_loads self dates sched s).2
   /\ world (Sync.export respond json_loads (with_exports m self) dates sched s).2
      = world (Sync.export respond json_loads self dates sched s).2)
  /\ ((Async.export respond (async_with_exports m x) dates sched s).1
      = (Async.export respond x dates sched s).1
      /\ trace (Async.export respond (async_with_exports m x) dates sched s).2
         = trace (Async.export respond x dates sched s).2
      /\ world (Async.export respond (async_with_exports m x) dates sched s).2
         = world (Async.export respond x dates sched s).2)
  /\ Async.new key mcd m
     = match Async.new key mcd mce with
       | inl e => inl e
       | inr x' => inr (async_with_exports m x')
       end.
Proof.
  split; [|split].
  - unfold Sync.export. cbn zeta.
    cbn [with_exports max_concurrent_downloads].
    destruct (Sync.ThreadPoolExecutor (max_concurrent_downloads self)) as [e|N];
      [done|].
    unfold Sync.batch. rewrite futures_with_exports.
    set (c := run _ _ (submit_all _ _ (emit_all (banner (with_exports m self) dates) s)) _).
    set (c' := run _ _ (submit_all _ _ (emit_all (banner self dates) s)) _).
    assert (Hb : blind c c') by (by apply run_blind).
    destruct Hb as (Ht & Hg & Hf & Htr & Hw).
    unfold Sync.results_of, Sync.loop_output. rewrite Ht, Hf.
    destruct (all_done (tasks c')); [|done].
    match goal with |- context [exec respond report ?a] => set (s1 := a) end.
    match goal with
    | |- context [exec respond report ?a] =>
        tryif is_var a then fail else set (s2 := a)
    end.
    destruct (exec_blind respond report s1 s2) as (H1 & H2 & H3); [done..|].
    destruct (exec respond report s1) as [[e|u] t1],
             (exec respond report s2) as [[e'|u'] t2]; simpl in *;
      simplify_eq; done.
  - unfold Async.export. cbn zeta.
    unfold Async.batch. rewrite coroutines_with_exports.
    cbn [async_with_exports Async.base Async.semaphore].
    set (c := run _ _ (submit_all _ _
               (emit_all (banner (with_exports m (Async.base x)) dates) s)) _).
    set (c' := run _ _ (submit_all _ _ (emit_all (banner (Async.base x) dates) s)) _).
    assert (Hb : blind c c') by (by apply run_blind).
    destruct Hb as (Ht & Hg & Hf & Htr & Hw).
    unfold Async.gather, Async.first_raised, Async.results_of. rewrite Ht, Hf.
    destruct (all_done (tasks c')); [|done].
    destruct (head _); [done|].
    destruct (exec_blind respond report (st c) (st c')) as (H1 & H2 & H3); [done..|].
    destruct (exec respond report (st c)) as [[e0|u] t1],
             (exec respond report (st c')) as [[e'|u'] t2]; simpl in *;
      simplify_eq; done.
  - unfold Async.new. by destruct (Async.Semaphore mcd).
Qed.
End Unused.

(** ** The statements at work on the small world *)

Lemma batch_cardinality_witness :
  all_done (tasks (demo_sync_run (round_robin 3 9))) = true /\
  length (Sync.results_of demo_dates (demo_sync_run (round_robin 3 9)))
    = length demo_dates /\
  all_done (tasks (demo_async_run (round_robin 3 9))) = true /\
  (exists results,
     Async.gather (demo_async_run (round_robin 3 9)) = inr results /\
     length results = length demo_dates) /\
  (1 <= 3)%Z /\
  (exists sched, all_done (tasks (demo_sync_run sched)) = true).
Proof.
  destruct (batch_cardinality (demo_respond "2020-03-02") demo_json_loads
              demo_exporter demo_async demo_dates demo_state)
    as (Hs & Ha & He & _).
  assert (H1 : all_done (tasks (demo_sync_run (round_robin 3 9))) = true)
    by (vm_compute; reflexivity).
  assert (H2 : all_done (tasks (demo_async_run (round_robin 3 9))) = true)
    by (vm_compute; reflexivity).
  assert (H3 : (1 <= 3)%Z) by lia.
  split_and!;
    [exact H1 | exact (proj1 (Hs 3%Z _ H1)) | exact H2 | exact (Ha _ H2)
    | exact H3 | exact (He 3%Z H3)].
Defined.

Lemma concurrency_bound_witness :
  (1 <= 1)%Z /\
  (Z.of_nat (in_flight (tasks (Sync.batch (demo_respond "2020-03-02")
      demo_json_loads demo_exporter demo_dates 1 (round_robin 3 2) demo_state)))
   <= 1)%Z /\
  (1 <= Async.semaphore demo_async)%Z /\
  (Z.of_nat (in_flight (tasks (demo_async_run (round_robin 3 2))))
   <= Async.semaphore demo_async)%Z.
Proof.
  destruct (concurrency_bound (demo_respond "2020-03-02") demo_json_loads
              demo_exporter demo_async demo_dates (round_robin 3 2) demo_state)
    as [Hs Ha].
  assert (H1 : (1 <= 1)%Z) by lia.
  assert (H2 : (1 <= Async.semaphore demo_async)%Z) by (simpl; lia).
  split_and!;
    [exact H1 | exact (proj1 (Hs 1%Z H1)) | exact H2 | exact (proj1 (Ha H2))].
Defined.

Lemma invalid_limit_witness :
  (max_concurrent_downloads demo_zero <= 0)%Z /\
  Sync.export (demo_respond "") demo_json_loads demo_zero demo_dates
    (round_robin 3 9) demo_state
  = (Some (inl ValueError), emit_all (banner demo_zero demo_dates) demo_state) /\
  (-1 < 0)%Z /\
  Async.new {| key := "DEMO_KEY" |} (-1) 3 = inl ValueError /\
  demo_dates <> [] /\
  (Async.export (demo_respond "")
     {| Async.base := demo_zero; Async.semaphore := 0 |}
     demo_dates (round_robin 3 9) demo_state).1 = None.
Proof.
  destruct (invalid_limit (demo_respond "") demo_json_loads demo_zero
              {| key := "DEMO_KEY" |} (-1) 3 demo_dates (round_robin 3 9)
              demo_state) as (Hs & Hn & Hz).
  assert (H1 : (max_concurrent_downloads demo_zero <= 0)%Z) by (simpl; lia).
  assert (H2 : (-1 < 0)%Z) by lia.
  assert (H3 : demo_dates <> []) by discriminate.
  split_and!;
    [exact H1 | exact (Hs H1) | exact H2 | exact (Hn H2) | exact H3
    | exact (proj2 (proj2 (Hz _ eq_refl)) H3)].
Defined.

Lemma worker_isolation_witness :
  demo_dates !! 1%nat = Some "2020-03-02" /\
  tasks (demo_sync_run (round_robin 3 9)) !! 1%nat = Some (Done (inr false)) /\
  (inr false : exn + bool)
  = inr (sync_item_ok demo_json_loads
           (item_calls demo_state (demo_sync_run (round_robin 3 9)) 1)) /\
  tasks (demo_async_run (round_robin 3 9)) !! 1%nat = Some (Done (inr false)) /\
  (inr false : exn + bool)
  = inr (async_item_ok
           (item_calls demo_state (demo_async_run (round_robin 3 9)) 1)).
Proof.
  destruct (worker_isolation (demo_respond "2020-03-02") demo_json_loads
              demo_exporter demo_async demo_dates (round_robin 3 9) demo_state
              1 "2020-03-02" eq_refl) as [Hs (Ha & _ & _)].
  destruct (Hs 3%Z) as (Hr & _ & _).
  assert (H1 : tasks (demo_sync_run (round_robin 3 9)) !! 1%nat
               = Some (Done (inr false))) by (vm_compute; reflexivity).
  assert (H2 : tasks (demo_async_run (round_robin 3 9)) !! 1%nat
               = Some (Done (inr false))) by (vm_compute; reflexivity).
  split_and!; [reflexivity | exact H1 | exact (Hr _ H1) | exact H2 | exact (Ha _ H2)].
Defined.

Lemma results_order_witness :
  all_done (tasks (demo_sync_run (round_robin 3 9))) = true /\
  finished (demo_sync_run (round_robin 3 9)) ≡ₚ seq 0 (length demo_dates) /\
  all_done (tasks (demo_async_run (round_robin 3 9))) = true /\
  (exists results,
     Async.gather (demo_async_run (round_robin 3 9)) = inr results /\
     forall i, (i < length demo_dates)%nat ->
       results !! i = outcome_at (tasks (demo_async_run (round_robin 3 9))) i).
Proof.
  destruct (results_order (demo_respond "2020-03-02") demo_json_loads
              demo_exporter demo_async demo_dates (round_robin 3 9) demo_state)
    as [Hs Ha].
  assert (H1 : all_done (tasks (demo_sync_run (round_robin 3 9))) = true)
    by (vm_compute; reflexivity).
  assert (H2 : all_done (tasks (demo_async_run (round_robin 3 9))) = true)
    by (vm_compute; reflexivity).
  split_and!; [exact H1 | exact (proj1 (Hs 3%Z H1)) | exact H2 | exact (Ha H2)].
Defined.

Lemma request_timeouts_witness :
  demo_dates !! 1%nat = Some "2020-03-02" /\
  (Urlopen (metadata_url_of demo_exporter "2020-03-02") 30, inl TimeoutError)
    ∈ item_calls demo_state (demo_sync_run (round_robin 3 9)) 1 /\
  tasks (demo_sync_run (round_robin 3 9)) !! 1%nat = Some (Done (inr false)) /\
  (SessionGet (metadata_url_of demo_exporter "2020-03-02"), inl TimeoutError)
    ∈ item_calls demo_state (demo_async_run (round_robin 3 9)) 1 /\
  tasks (demo_async_run (round_robin 3 9)) !! 1%nat = Some (Done (inr false)) /\
  (inr false : exn + bool) = inr false.
Proof.
  destruct (request_timeouts (demo_respond "2020-03-02") demo_json_loads
              demo_exporter demo_async demo_dates (round_robin 3 9) demo_state
              1 "2020-03-02" eq_refl) as [Hs (Ha & _)].
  destruct (Hs 3%Z) as (_ & Ht & _).
  assert (H1 : (Urlopen (metadata_url_of demo_exporter "2020-03-02") 30,
                inl TimeoutError)
               ∈ item_calls demo_state (demo_sync_run (round_robin 3 9)) 1).
  { apply list_elem_of_lookup_2 with 0%nat. vm_compute. reflexivity. }
  assert (H2 : tasks (demo_sync_run (round_robin 3 9)) !! 1%nat
               = Some (Done (inr false))) by (vm_compute; reflexivity).
  assert (H3 : (SessionGet (metadata_url_of demo_exporter "2020-03-02"),
                inl TimeoutError)
               ∈ item_calls demo_state (demo_async_run (round_robin 3 9)) 1).
  { apply list_elem_of_lookup_2 with 0%nat. vm_compute. reflexivity. }
  assert (H4 : tasks (demo_async_run (round_robin 3 9)) !! 1%nat
               = Some (Done (inr false))) by (vm_compute; reflexivity).
  split_and!; [reflexivity | exact H1 | exact H2 | exact H3 | exact H4
              | exact (Ht _ _ H1 H2)].
Defined.

Lemma aggregate_flag_witness :
  (Sync.export (demo_respond "") demo_json_loads demo_exporter demo_dates
     (round_robin 3 9) demo_state).1 = Some (inr true) /\
  (forall i, (i < length demo_dates)%nat ->
     outcome_at
       (tasks (Sync.batch (demo_respond "") demo_json_loads demo_exporter
                 demo_dates (max_concurrent_downloads demo_exporter)
                 (round_robin 3 9)
                 (emit_all (banner demo_exporter demo_dates) demo_state))) i
     = Some true) /\
  (Async.export (demo_respond "2020-03-02") demo_async demo_dates
     (round_robin 3 9) demo_state).1 = Some (inr false) /\
  (Async.export (demo_respond "") demo_async [] [] demo_state).1
  = Some (inr true).
Proof.
  destruct (aggregate_flag (demo_respond "") demo_json_loads demo_exporter
              demo_async demo_dates (round_robin 3 9) demo_state true)
    as [Hs _].
  assert (H1 : (Sync.export (demo_respond "") demo_json_loads demo_exporter
                  demo_dates (round_robin 3 9) demo_state).1 = Some (inr true))
    by (vm_compute; reflexivity).
  split_and!; [exact H1 | exact (proj1 (proj1 (Hs H1)) eq_refl)
              | vm_compute; reflexivity | vm_compute; reflexivity].
Defined.

Lemma early_exit_witness :
  demo_dates !! 1%nat = Some "2020-03-02" /\
  sync_locate demo_json_loads
    (item_calls demo_state (demo_sync_run (round_robin 3 9)) 1) = Failed /\
  (length (item_calls demo_state (demo_sync_run (round_robin 3 9)) 1) <= 2)%nat /\
  async_locate (item_calls demo_state (demo_async_run (round_robin 3 9)) 1)
    = Failed /\
  (length (item_calls demo_state (demo_async_run (round_robin 3 9)) 1) <= 2)%nat.
Proof.
  destruct (early_exit (demo_respond "2020-03-02") demo_json_loads
              demo_exporter demo_async demo_dates (round_robin 3 9) demo_state
              1 "2020-03-02" eq_refl) as [Hs (_ & Ha & _)].
  destruct (Hs 3%Z) as (_ & Hl & _).
  assert (H1 : sync_locate demo_json_loads
                 (item_calls demo_state (demo_sync_run (round_robin 3 9)) 1)
               = Failed) by (vm_compute; reflexivity).
  assert (H2 : async_locate
                 (item_calls demo_state (demo_async_run (round_robin 3 9)) 1)
               = Failed) by (vm_compute; reflexivity).
  split_and!; [reflexivity | exact H1 | exact (proj1 (Hl H1)) | exact H2
              | exact (proj1 (Ha H2))].
Defined.

Lemma exit_status_of_main_witness :
  (Sync.export (demo_respond "") demo_json_loads
     {| api_key := {| key := getenv_key None |};
        max_concurrent_downloads := 3;
        max_concurrent_exports := 3 |}
     (dates_of_argv ["apod"; "2020-03-01"]) (replicate 9 0%nat)
     demo_state).1 = Some (inr true) /\
  (exists code,
     (Sync.main (demo_respond "") demo_json_loads ["apod"; "2020-03-01"] None
        (replicate 9 0%nat) demo_state).1 = Some code /\
     (@inr exn bool true = inr true -> code = 0%Z) /\
     (@inr exn bool true <> inr true -> code = 1%Z)).
Proof.
  destruct (exit_status_of_main (demo_respond "") demo_json_loads
              ["apod"; "2020-03-01"] None (replicate 9 0%nat) demo_state)
    as [Hs _].
  assert (H1 : (Sync.export (demo_respond "") demo_json_loads
                  {| api_key := {| key := getenv_key None |};
                     max_concurrent_downloads := 3;
                     max_concurrent_exports := 3 |}
                  (dates_of_argv ["apod"; "2020-03-01"]) (replicate 9 0%nat)
                  demo_state).1 = Some (inr true))
    by (vm_compute; reflexivity).
  split; [exact H1 | exact (Hs _ H1)].
Defined.

(** ** Where the claims of the specification fail on the code *)

(** C3: a limit of zero is not refused by the asyncio exporter, whose
    constructor returns an exporter, and whose [export] on the empty key
    sequence returns [True]. *)
Lemma zero_limit_accepted :
  exists x,
    Async.new {| key := "DEMO_KEY" |} 0 3 = inr x /\
    (Async.export (demo_respond "") x [] [] demo_state).1 = Some (inr true).
Proof. eexists. split; [reflexivity|]. vm_compute. reflexivity. Qed.

(** C5: in the thread-pool exporter the first entry of [results] is not the
    result of item 0 when another item completes first.  Here item 0 cannot
    be located and completes last. *)
Lemma completion_order_counterexample :
  all_done (tasks (Sync.batch (demo_respond "2020-03-01") demo_json_loads
                     demo_exporter demo_dates 3
                     (replicate 9 2 ++ replicate 9 1 ++ replicate 9 0)%nat
                     demo_state)) = true /\
  Sync.results_of demo_dates
    (Sync.batch (demo_respond "2020-03-01") demo_json_loads demo_exporter
       demo_dates 3 (replicate 9 2 ++ replicate 9 1 ++ replicate 9 0)%nat
       demo_state) !! 0%nat = Some true /\
  outcome_at
    (tasks (Sync.batch (demo_respond "2020-03-01") demo_json_loads
              demo_exporter demo_dates 3
              (replicate 9 2 ++ replicate 9 1 ++ replicate 9 0)%nat
              demo_state)) 0 = Some false.
Proof. split_and!; vm_compute; reflexivity. Qed.

(** C6: the file write of the thread-pool exporter and the requests of the
    asyncio exporter are made without a timeout of 30. *)
Lemma calls_without_timeout :
  (exists cl a,
     (cl, a) ∈ item_calls demo_state (demo_sync_run (round_robin 3 9)) 0 /\
     is_write cl = true /\ call_timeout cl = None) /\
  (exists url a,
     (SessionGet url, a)
       ∈ item_calls demo_state (demo_async_run (round_robin 3 9)) 0 /\
     call_timeout (SessionGet url) = None).
Proof.
  split.
  - exists (WriteFile "apod-export-0.jpg" [Byte.x41; Byte.x42]), (inr VNone).
    split; [|done]. apply list_elem_of_lookup_2 with 4%nat. vm_compute. reflexivity.
  - exists (metadata_url_of demo_exporter "2020-03-01"),
      (inr (VResponse (Response 200 0))).
    split; [|done]. apply list_elem_of_lookup_2 with 0%nat. vm_compute. reflexivity.
Qed.

(** * Further properties of the two exporters *)

(** ** Admission: workers and permits are given back *)

Lemma in_flight_all_done ts : all_done ts = true -> in_flight ts = 0%nat.
Proof.
  unfold all_done, in_flight. induction ts as [|t ts IH]; [done|]. simpl.
  intros [Ht Hts]%andb_prop. rewrite filter_cons.
  destruct t; simpl in Ht; try done. rewrite decide_False by (simpl; auto).
  by apply IH.
Qed.

Section Permits.
Context {W : Type} (respond : W -> call -> answer * W).
Context (json_loads : bytes -> exn + gmap string string).
Implicit Types (self : ApodExporter) (x : Async.Exporter)
  (dates : list string) (sched : list nat) (s : state W).

(** X1.  No worker of the pool and no permit of the semaphore is ever lost:
    at every point of every run the number of busy workers is the number
    of items inside their body, and the permits left plus the items inside
    their body make up the initial value of the semaphore; once every item
    has completed, whether it succeeded or failed, all workers are idle and
    the semaphore is back at its initial value. *)
Theorem permits_conserved self x dates N sched s :
  (gate (Sync.batch respond json_loads self dates N sched s)
   = in_flight (tasks (Sync.batch respond json_loads self dates N sched s))
   /\ (all_done (tasks (Sync.batch respond json_loads self dates N sched s)) = true ->
       gate (Sync.batch respond json_loads self dates N sched s) = 0%nat))
  /\ ((Z.of_nat (in_flight (tasks (Async.batch respond x dates sched s)))
       + gate (Async.batch respond x dates sched s) = Async.semaphore x)%Z
      /\ (all_done (tasks (Async.batch respond x dates sched s)) = true ->
          gate (Async.batch respond x dates sched s) = Async.semaphore x)).
Proof.
  split.
  - destruct (pool_bound respond N (Sync.futures json_loads self dates) s sched)
      as [Hg _].
    split; [done|]. intros Hall. unfold Sync.batch. rewrite Hg.
    by apply in_flight_all_done.
  - destruct (sem_bound respond (Async.semaphore x) (Async.coroutines x dates)
                s sched) as [Hg _].
    split; [done|]. intros Hall. apply in_flight_all_done in Hall.
    unfold Async.batch in *. rewrite Hall in Hg. simpl in Hg. lia.
Qed.
End Permits.

(** ** What the batch loop never sees *)

Section NoException.
Context {W : Type} (respond : W -> call -> answer * W).
Context (json_loads : bytes -> exn + gmap string string).
Implicit Types (self : ApodExporter) (x : Async.Exporter)
  (dates : list string) (sched : list nat) (s : state W).

Lemma sync_future_result_quiet self dates N sched s i :
  i ∈ finished (Sync.batch respond json_loads self dates N sched s) ->
  (Sync.future_result dates
     (tasks (Sync.batch respond json_loads self dates N sched s)) i).2 = [].
Proof.
  intros Hi.
  destruct (fin_inv_run respond (Sync.pool N) (Sync.futures json_loads self dates)
              0%nat s sched) as [_ Hf].
  apply Hf in Hi as [r Hr]. unfold Sync.batch, Sync.future_result.
  rewrite Hr.
  by destruct (sync_done respond json_loads self dates N sched s i r Hr) as [b ->].
Qed.

Lemma sync_loop_quiet self dates N sched s :
  Sync.loop_output dates (Sync.batch respond json_loads self dates N sched s) = [].
Proof.
  unfold Sync.loop_output.
  pose proof (sync_future_result_quiet self dates N sched s) as H.
  induction (finished (Sync.batch respond json_loads self dates N sched s))
    as [|i l IH]; [done|].
  rewrite fmap_cons. simpl. rewrite H by left. simpl.
  apply IH. intros j Hj. apply H. by right.
Qed.

(** X2.  No exception ever reaches the batch loop.  In the thread-pool
    exporter [future.result()] never raises, so the loop's [except] branch
    is never taken and its message is never printed; in the asyncio
    exporter no task holds an exception, so [gather] returns the list of
    results.  This holds at every point of every run, whatever the
    collaborators answer. *)
Theorem no_exception_from_items self x dates N sched s :
  Sync.loop_output dates (Sync.batch respond json_loads self dates N sched s) = []
  /\ (forall i r,
        tasks (Sync.batch respond json_loads self dates N sched s) !! i
          = Some (Done r) -> exists b, r = inr b)
  /\ Async.first_raised (Async.batch respond x dates sched s) = None
  /\ Async.gather (Async.batch respond x dates sched s)
     = inr (Async.results_of (Async.batch respond x dates sched s)).
Proof.
  split_and!.
  - apply sync_loop_quiet.
  - intros i r. apply sync_done.
  - pose proof (async_gather respond x dates sched s) as H.
    unfold Async.gather in H.
    by destruct (Async.first_raised (Async.batch respond x dates sched s)).
  - apply async_gather.
Qed.
End NoException.

(** ** The entry point *)

Lemma dates_of_argv_nonempty argv : dates_of_argv argv <> [].
Proof.
  unfold dates_of_argv. cbn zeta. destruct (decide (1 < length argv)) as [H|H]; [|done].
  destruct argv as [|a [|b argv]]; simpl in *; [lia|lia|done].
Qed.

Lemma dates_of_argv_default argv :
  (length argv <= 1)%nat -> dates_of_argv argv = ["2020-03-01"].
Proof.
  intros H. unfold dates_of_argv. cbn zeta.
  destruct (decide (1 < length argv)); [lia|done].
Qed.

Lemma dates_of_argv_given prog date argv :
  dates_of_argv (prog :: date :: argv) = date :: argv.
Proof.
  unfold dates_of_argv. cbn zeta.
  destruct (decide (1 < length (prog :: date :: argv))) as [H|H]; [done|].
  simpl in H. lia.
Qed.

Section EntryPoint.
Context {W : Type} (respond : W -> call -> answer * W).
Context (json_loads : bytes -> exn + gmap string string).
Implicit Types (argv : list string) (env : option string)
  (sched : list nat) (s : state W).

(** X3.  [main] never calls [export] on an empty list of dates.  Run
    without a date argument it behaves exactly as if it had been given the
    single date 2020-03-01; run with arguments it works on all of them, in
    the order given, and the program name is not one of them. *)
Theorem main_default_date prog date rest argv env sched s :
  dates_of_argv argv <> []
  /\ dates_of_argv (prog :: date :: rest) = date :: rest
  /\ ((length argv <= 1)%nat ->
      Sync.main respond json_loads argv env sched s
      = Sync.main respond json_loads [prog; "2020-03-01"] env sched s
      /\ Async.main respond argv env sched s
         = Async.main respond [prog; "2020-03-01"] env sched s).
Proof.
  split_and!.
  - apply dates_of_argv_nonempty.
  - apply dates_of_argv_given.
  - intros H. unfold Sync.main, Async.main. cbn zeta.
    by rewrite (dates_of_argv_default argv H), dates_of_argv_given.
Qed.

(** X4.  [main] can always run to its end: for every command line and
    every environment there is a schedule of the three-way batch on which
    [main] exits, and whenever it exits its status is 0 or 1. *)
Theorem main_terminates argv env s :
  (exists sched code, (Sync.main respond json_loads argv env sched s).1 = Some code)
  /\ (exists sched code, (Async.main respond argv env sched s).1 = Some code)
  /\ (forall sched code,
        (Sync.main respond json_loads argv env sched s).1 = Some code ->
        code = 0%Z \/ code = 1%Z)
  /\ (forall sched code,
        (Async.main respond argv env sched s).1 = Some code ->
        code = 0%Z \/ code = 1%Z).
Proof.
  split_and!.
  - set (self := {| api_key := {| key := getenv_key env |};
                    max_concurrent_downloads := 3;
                    max_concurrent_exports := 3 |}).
    destruct (sync_completes respond json_loads self (dates_of_argv argv) 3
                (emit_all (banner self (dates_of_argv argv)) s))
      as [sched Hall]; [lia|].
    destruct (sync_export_total respond json_loads self (dates_of_argv argv)
                sched s Hall) as [r Hr].
    exists sched, (exit_status r). unfold Sync.main. cbn zeta. cbn [fst].
    fold self. by rewrite Hr.
  - set (x := {| Async.base := {| api_key := {| key := getenv_key env |};
                                  max_concurrent_downloads := 3;
                                  max_concurrent_exports := 3 |};
                 Async.semaphore := 3 |}).
    destruct (async_completes respond x (dates_of_argv argv)
                (emit_all (banner (Async.base x) (dates_of_argv argv)) s))
      as [sched Hall]; [simpl; lia|].
    destruct (async_export_total respond x (dates_of_argv argv) sched s Hall)
      as [r Hr].
    exists sched, (exit_status r). unfold Async.main. cbn zeta.
    change (Async.new {| key := getenv_key env |} 3 3) with (@inr exn _ x).
    cbn [fst]. by rewrite Hr.
  - intros sched code. unfold Sync.main. cbn zeta. cbn [fst].
    destruct (Sync.export _ _ _ _ _ _).1 as [[e|[|]]|]; simpl; intros H;
      simplify_eq; auto.
  - intros sched code. unfold Async.main. cbn zeta.
    change (Async.new {| key := getenv_key env |} 3 3)
      with (@inr exn _ {| Async.base := {| api_key := {| key := getenv_key env |};
                                  max_concurrent_downloads := 3;
                                  max_concurrent_exports := 3 |};
                 Async.semaphore := 3 |}).
    cbn [fst].
    destruct (Async.export _ _ _ _ _).1 as [[e|[|]]|]; simpl; intros H;
      simplify_eq; auto.
Qed.
End EntryPoint.

(** ** What one item asks of the outside world *)

Ltac leaf_files :=
  simpl; split_and!;
  [ lia | lia | by auto
  | let b := fresh "b" in let Hb := fresh "Hb" in
    intros b Hb; simplify_eq; by split ].

Section SyncBudget.
Context (json_loads : bytes -> exn + gmap string string).
Implicit Types (self : ApodExporter) (date : string) (index : nat).

Lemma sync_budget self date index h q :
  reaches (Sync.download_apod json_loads self date index) h q ->
  (length h <= 5)%nat
  /\ (length (requests_of h) <= 2)%nat
  /\ (files_of h = [] \/ files_of h = [output_file_of index])
  /\ (forall b, q = Ret b -> b = true <-> files_of h = [output_file_of index]).
Proof.
  unfold Sync.download_apod. intros H. simpl in H. walk.
  all: leaf_files.
Qed.
End SyncBudget.

Section AsyncBudget.
Implicit Types (self : Async.Exporter) (date : string) (index : nat).

Lemma async_budget self date index h q :
  reaches (Async.download_apod self date index) h q ->
  (length h <= 5)%nat
  /\ (length (requests_of h) <= 2)%nat
  /\ (files_of h = [] \/ files_of h = [output_file_of index])
  /\ (forall b, q = Ret b -> b = true <-> files_of h = [output_file_of index]).
Proof.
  unfold Async.download_apod. intros H. simpl in H. walk.
  all: leaf_files.
Qed.
End AsyncBudget.

(** ** Who makes the calls of a batch *)

Lemma sum_list_indicator (f : nat -> nat) j a K :
  sum_list ((fun i => (if decide (j = i) then 1 else 0) + f i)%nat <$> seq a K)
  = ((if decide (a <= j < a + K)%nat then 1 else 0)
     + sum_list (f <$> seq a K))%nat.
Proof.
  revert a. induction K as [|K IH]; intros a; csimpl.
  - destruct (decide _); [lia|done].
  - rewrite IH.
    destruct (decide (j = a)), (decide (S a <= j < S a + K)%nat),
      (decide (a <= j < a + S K)%nat); lia.
Qed.

Lemma sum_list_bound (f : nat -> nat) n a K :
  (forall i, (a <= i < a + K)%nat -> (f i <= n)%nat) ->
  (sum_list (f <$> seq a K) <= n * K)%nat.
Proof.
  revert a. induction K as [|K IH]; intros a H; csimpl; [lia|].
  specialize (IH (S a)). specialize (H a) as Ha.
  assert (sum_list (f <$> seq (S a) K) <= n * K)%nat by (apply IH; intros; apply H; lia).
  assert (f a <= n)%nat by (apply Ha; lia). nia.
Qed.

Lemma local_cons i ev tr :
  local i (ev :: tr)
  = match who ev with
    | Item j => if decide (j = i) then (what ev, got ev) :: local i tr
                else local i tr
    | Main => local i tr
    end.
Proof. unfold local. simpl. destruct (who ev) as [|j]; [done|]. by destruct (decide _). Qed.

(** An index outside the batch has made no call. *)
Lemma local_out_of_range K tr i :
  by_items K tr -> (K <= i)%nat -> local i tr = [].
Proof.
  unfold by_items. induction 1 as [|ev tr (j & Hj & Hlt) _ IH]; intros Hi; [done|].
  rewrite local_cons, Hj. destruct (decide (j = i)); [lia|by apply IH].
Qed.

(** Every event is the call of exactly one item. *)
Lemma length_by_items K tr :
  by_items K tr ->
  length tr = sum_list ((fun i => length (local i tr)) <$> seq 0 K).
Proof.
  unfold by_items. induction 1 as [|ev tr (j & Hj & Hlt) _ IH].
  - simpl. induction (seq 0 K); simpl; [done|]. by f_equal.
  - cbn [length]. rewrite IH.
    rewrite <- (Nat.add_1_l (sum_list _)).
    replace 1%nat with (if decide (0 <= j < 0 + K)%nat then 1 else 0)%nat at 1
      by (destruct (decide _); [done|lia]).
    rewrite <- sum_list_indicator. f_equal. apply list_fmap_ext.
    intros _ i _. rewrite local_cons, Hj.
    destruct (decide (j = i)); simpl; done.
Qed.

Section Callers.
Context {W : Type} (respond : W -> call -> answer * W).
Context {G : Type} (ops : gate_ops G).
Implicit Types (c : config W G) (i : nat) (sched : list nat) (s : state W) (g : G).

Lemma run_by_items (bodies : list (prog bool)) g s sched :
  by_items (length bodies) (since s (st (run respond ops (submit_all bodies g s) sched))).
Proof.
  unfold since, by_items.
  cut ((length (trace s) <= length (trace (st (run respond ops (submit_all bodies g s) sched))))%nat
       /\ length (tasks (run respond ops (submit_all bodies g s) sched)) = length bodies
       /\ Forall (fun ev => exists i, who ev = Item i /\ (i < length bodies)%nat)
            (drop (length (trace s))
               (trace (st (run respond ops (submit_all bodies g s) sched))))).
  { tauto. }
  apply (run_ind respond ops
           (fun c => (length (trace s) <= length (trace (st c)))%nat
                     /\ length (tasks c) = length bodies
                     /\ Forall (fun ev => exists i, who ev = Item i
                                           /\ (i < length bodies)%nat)
                          (drop (length (trace s)) (trace (st c))))).
  - simpl. rewrite length_fmap, drop_all. by split_and!.
  - intros c i (Hle & Hlen & Hall).
    rewrite step_length. split_and!; [|done|].
    + unfold step. destruct (tasks c !! i) as [[p|[b|e|l k|cl k]|r]|]; simpl; try done.
      * by destruct (can_enter ops (gate c)).
      * rewrite length_app. lia.
    + unfold step. destruct (tasks c !! i) as [[p|[b|e|l k|cl k]|r]|] eqn:E;
        simpl; try done.
      * by destruct (can_enter ops (gate c)).
      * rewrite drop_app_le by done. apply Forall_app. split; [done|].
        apply Forall_singleton. exists i. split; [done|].
        rewrite <- Hlen. by eapply lookup_lt_Some.
Qed.
End Callers.

Lemma string_length_app s t :
  String.length (s +:+ t) = (String.length s + String.length t)%nat.
Proof. induction s as [|a s IH]; simpl; [done|]. by rewrite IH. Qed.

Lemma string_app_inj_r s1 s2 t : s1 +:+ t = s2 +:+ t -> s1 = s2.
Proof.
  revert s2. induction s1 as [|a s1 IH]; intros [|b s2] H.
  - done.
  - apply (f_equal String.length) in H.
    rewrite !string_length_app in H. simpl in H. lia.
  - apply (f_equal String.length) in H.
    rewrite !string_length_app in H. simpl in H. lia.
  - injection H as -> H. f_equal. by apply IH.
Qed.

Lemma output_file_of_inj i j : output_file_of i = output_file_of j -> i = j.
Proof.
  unfold output_file_of, str_of_nat. intros H.
  apply (inj (String.app _)) in H. apply string_app_inj_r in H.
  by apply (inj pretty) in H.
Qed.

Lemma metadata_url_of_inj self d1 d2 :
  metadata_url_of self d1 = metadata_url_of self d2 -> d1 = d2.
Proof.
  unfold metadata_url_of. intros H.
  by repeat apply (inj (String.app _)) in H.
Qed.

Section Budget.
Context {W : Type} (respond : W -> call -> answer * W).
Context (json_loads : bytes -> exn + gmap string string).
Implicit Types (self : ApodExporter) (x : Async.Exporter)
  (dates : list string) (sched : list nat) (s : state W).

Lemma sync_item_budget self dates N sched s i :
  (length (item_calls s (Sync.batch respond json_loads self dates N sched s) i)
   <= 5)%nat.
Proof.
  destruct (dates !! i) as [date|] eqn:Hd.
  - destruct (sync_item_reaches respond json_loads self dates N sched s i date Hd)
      as (q & Hq & _).
    by apply sync_budget in Hq as (? & _).
  - apply lookup_ge_None in Hd.
    pose proof (run_by_items respond (Sync.pool N)
                  (Sync.futures json_loads self dates) 0%nat s sched) as H.
    rewrite futures_length in H. unfold item_calls, Sync.batch.
    rewrite (local_out_of_range _ _ _ H Hd). simpl. lia.
Qed.

Lemma async_item_budget x dates sched s i :
  (length (item_calls s (Async.batch respond x dates sched s) i) <= 5)%nat.
Proof.
  destruct (dates !! i) as [date|] eqn:Hd.
  - destruct (async_item_reaches respond x dates sched s i date Hd)
      as (q & Hq & _).
    by apply async_budget in Hq as (? & _).
  - apply lookup_ge_None in Hd.
    pose proof (run_by_items respond Async.sem
                  (Async.coroutines x dates) (Async.semaphore x) s sched) as H.
    rewrite coroutines_length in H. unfold item_calls, Async.batch.
    rewrite (local_out_of_range _ _ _ H Hd). simpl. lia.
Qed.

(** X5.  A batch asks little of the outside world.  At every point of
    every run all the collaborator calls made so far are calls of items of
    the batch; an item has made at most five of them, of which at most two
    are HTTP requests; and a batch of K dates has made at most 5K calls in
    all. *)
Theorem call_budget self x dates N sched s :
  (by_items (length dates)
     (since s (st (Sync.batch respond json_loads self dates N sched s)))
   /\ (forall i,
         (length (item_calls s
                    (Sync.batch respond json_loads self dates N sched s) i)
          <= 5)%nat)
   /\ (forall i date, dates !! i = Some date ->
         (length (requests_of
                    (item_calls s
                       (Sync.batch respond json_loads self dates N sched s) i))
          <= 2)%nat)
   /\ (length (since s (st (Sync.batch respond json_loads self dates N sched s)))
       <= 5 * length dates)%nat)
  /\ (by_items (length dates) (since s (st (Async.batch respond x dates sched s)))
      /\ (forall i,
            (length (item_calls s (Async.batch respond x dates sched s) i)
             <= 5)%nat)
      /\ (forall i date, dates !! i = Some date ->
            (length (requests_of
                       (item_calls s (Async.batch respond x dates sched s) i))
             <= 2)%nat)
      /\ (length (since s (st (Async.batch respond x dates sched s)))
          <= 5 * length dates)%nat).
Proof.
  split.
  - pose proof (run_by_items respond (Sync.pool N)
                  (Sync.futures json_loads self dates) 0%nat s sched) as H.
    rewrite futures_length in H. split_and!.
    + done.
    + apply sync_item_budget.
    + intros i date Hd.
      destruct (sync_item_reaches respond json_loads self dates N sched s i date Hd)
        as (q & Hq & _).
      by apply sync_budget in Hq as (_ & ? & _).
    + unfold Sync.batch. rewrite (length_by_items _ _ H).
      apply sum_list_bound. intros i _. apply sync_item_budget.
  - pose proof (run_by_items respond Async.sem
                  (Async.coroutines x dates) (Async.semaphore x) s sched) as H.
    rewrite coroutines_length in H. split_and!.
    + done.
    + apply async_item_budget.
    + intros i date Hd.
      destruct (async_item_reaches respond x dates sched s i date Hd)
        as (q & Hq & _).
      by apply async_budget in Hq as (_ & ? & _).
    + unfold Async.batch. rewrite (length_by_items _ _ H).
      apply sum_list_bound. intros i _. apply async_item_budget.
Qed.

(** X6.  Every item writes its own file and no other.  The files an item
    of index i has written are none or the single file apod-export-i.jpg;
    once the item has completed, its result is [True] exactly when it has
    written that file; and the files of two different items differ, so no
    item of a batch overwrites the file of another. *)
Theorem files_written self x dates N sched s i date :
  dates !! i = Some date ->
  ((files_of (item_calls s (Sync.batch respond json_loads self dates N sched s) i)
    = []
    \/ files_of (item_calls s (Sync.batch respond json_loads self dates N sched s) i)
       = [output_file_of i])
   /\ (forall r,
         tasks (Sync.batch respond json_loads self dates N sched s) !! i
           = Some (Done r) ->
         r = inr true <->
         files_of (item_calls s
                     (Sync.batch respond json_loads self dates N sched s) i)
         = [output_file_of i]))
  /\ ((files_of (item_calls s (Async.batch respond x dates sched s) i) = []
       \/ files_of (item_calls s (Async.batch respond x dates sched s) i)
          = [output_file_of i])
      /\ (forall r,
            tasks (Async.batch respond x dates sched s) !! i = Some (Done r) ->
            r = inr true <->
            files_of (item_calls s (Async.batch respond x dates sched s) i)
            = [output_file_of i]))
  /\ (forall j, j <> i -> output_file_of j <> output_file_of i).
Proof.
  intros Hd. split_and!.
  - destruct (sync_item_reaches respond json_loads self dates N sched s i date Hd)
      as (q & Hq & _).
    by apply sync_budget in Hq as (_ & _ & ? & _).
  - intros r Hr.
    destruct (sync_item_reaches respond json_loads self dates N sched s i date Hd)
      as (q & Hq & Hdone).
    destruct (Hdone r Hr) as (b & -> & ->).
    apply sync_budget in Hq as (_ & _ & _ & Hb).
    rewrite <- (Hb b eq_refl). split; [by intros [= ->]|by intros ->].
  - destruct (async_item_reaches respond x dates sched s i date Hd)
      as (q & Hq & _).
    by apply async_budget in Hq as (_ & _ & ? & _).
  - intros r Hr.
    destruct (async_item_reaches respond x dates sched s i date Hd)
      as (q & Hq & Hdone).
    destruct (Hdone r Hr) as (b & -> & ->).
    apply async_budget in Hq as (_ & _ & _ & Hb).
    rewrite <- (Hb b eq_refl). split; [by intros [= ->]|by intros ->].
  - intros j Hne Heq. by apply output_file_of_inj in Heq.
Qed.
End Budget.

(** ** The status test of the asyncio worker *)

Ltac leaf_status :=
  simpl; split;
  intros ? ? ?Hn ?Hs; simpl in Hn; simplify_eq; simpl in *; try done;
  (split_and!; [done | done | by intros ? [= <-]]).

Section AsyncStatus.
Implicit Types (self : Async.Exporter) (date : string) (index : nat).

Lemma async_status_paths self date index h q :
  reaches (Async.download_apod self date index) h q ->
  (forall c r, h !! 0%nat = Some (c, inr (VResponse r)) -> status r <> 200%Z ->
     length h = 1%nat /\ files_of h = [] /\ forall b, q = Ret b -> b = false)
  /\ (forall c r, h !! 2%nat = Some (c, inr (VResponse r)) -> status r <> 200%Z ->
        length h = 3%nat /\ files_of h = [] /\ forall b, q = Ret b -> b = false).
Proof.
  unfold Async.download_apod. intros H. simpl in H. walk.
  all: leaf_status.
Qed.
End AsyncStatus.

Section Status.
Context {W : Type} (respond : W -> call -> answer * W).
Implicit Types (x : Async.Exporter) (dates : list string) (sched : list nat)
  (s : state W).

(** X7.  The asyncio worker gives up on a response whose status is not
    200.  When the metadata request is answered with another status, the
    request stays the only call of the item: the body is never decoded, no
    image is requested and no file is written.  When the image request is
    answered with another status, it stays the last call: the image is
    never read and no file is written.  In both cases the result of the
    item is [False]. *)
Theorem async_http_status x dates sched s i date :
  dates !! i = Some date ->
  (forall c r,
     item_calls s (Async.batch respond x dates sched s) i !! 0%nat
       = Some (c, inr (VResponse r)) ->
     status r <> 200%Z ->
     length (item_calls s (Async.batch respond x dates sched s) i) = 1%nat
     /\ files_of (item_calls s (Async.batch respond x dates sched s) i) = []
     /\ forall r',
          tasks (Async.batch respond x dates sched s) !! i = Some (Done r') ->
          r' = inr false)
  /\ (forall c r,
        item_calls s (Async.batch respond x dates sched s) i !! 2%nat
          = Some (c, inr (VResponse r)) ->
        status r <> 200%Z ->
        length (item_calls s (Async.batch respond x dates sched s) i) = 3%nat
        /\ files_of (item_calls s (Async.batch respond x dates sched s) i) = []
        /\ forall r',
             tasks (Async.batch respond x dates sched s) !! i = Some (Done r') ->
             r' = inr false).
Proof.
  intros Hd.
  destruct (async_item_reaches respond x dates sched s i date Hd)
    as (q & Hq & Hdone).
  apply async_status_paths in Hq as [H0 H2].
  split; intros c r Hc Hs.
  - destruct (H0 c r Hc Hs) as (Hl & Hf & Hb). split_and!; [done|done|].
    intros r' Hr'. destruct (Hdone r' Hr') as (b & -> & ->).
    by rewrite (Hb b eq_refl).
  - destruct (H2 c r Hc Hs) as (Hl & Hf & Hb). split_and!; [done|done|].
    intros r' Hr'. destruct (Hdone r' Hr') as (b & -> & ->).
    by rewrite (Hb b eq_refl).
Qed.
End Status.

(** ** What [export] prints and what it asks itself *)

Section Output.
Context {W : Type} (respond : W -> call -> answer * W).

Lemma exec_prints (ls : list line) (s : state W) :
  exec respond (foldr Print (Ret tt) ls) s = (inr tt, emit_all ls s).
Proof.
  revert s. induction ls as [|l ls IH]; intros s; simpl.
  - unfold emit_all. rewrite app_nil_r. by destruct s.
  - rewrite IH. unfold emit_all, emit. simpl. by rewrite <- app_assoc.
Qed.

Lemma exec_prints_then {A} (ls : list line) (k : prog A) (s : state W) :
  exec respond (foldr Print k ls) s = exec respond k (emit_all ls s).
Proof.
  revert s. induction ls as [|l ls IH]; intros s; simpl.
  - unfold emit_all. rewrite app_nil_r. by destruct s.
  - rewrite IH. unfold emit_all, emit. simpl. by rewrite <- app_assoc.
Qed.

(** The report, case by case of what the file system answers. *)
Lemma exec_report (s : state W) :
  exec respond report s
  = let a := respond (world s) (Glob "apod-export-*.jpg") in
    let tr := trace s ++ [Event Main (Glob "apod-export-*.jpg") a.1] in
    match a.1 with
    | inl e => (inl e, State (stdout s ++ footer) tr a.2)
    | inr (VFiles fs) => (inr tt, State (stdout s ++ footer ++ listing fs) tr a.2)
    | inr _ => (inl TypeError, State (stdout s ++ footer) tr a.2)
    end.
Proof.
  unfold report. rewrite exec_prints_then. cbn zeta.
  unfold glob, do_call. simpl. unfold perform. simpl.
  destruct (respond (world s) (Glob "apod-export-*.jpg")) as [[e|v] w]; simpl;
    [done|].
  destruct v as [|r|b|m|fs]; simpl; try done.
  rewrite exec_prints. unfold emit_all. simpl. by rewrite <- app_assoc.
Qed.

Context {G : Type} (ops : gate_ops G).

End Output.

Section ExportOutput.
Context {W : Type} (respond : W -> call -> answer * W).
Context (json_loads : bytes -> exn + gmap string string).
Implicit Types (self : ApodExporter) (x : Async.Exporter)
  (dates : list string) (sched : list nat) (s : state W).

(** [export] of the thread-pool exporter once every future has completed. *)
Lemma sync_export_done self dates sched s :
  (1 <= max_concurrent_downloads self)%Z ->
  all_done (tasks (Sync.batch respond json_loads self dates
                     (max_concurrent_downloads self) sched
                     (emit_all (banner self dates) s))) = true ->
  Sync.export respond json_loads self dates sched s
  = match exec respond report
            (st (Sync.batch respond json_loads self dates
                   (max_concurrent_downloads self) sched
                   (emit_all (banner self dates) s))) with
    | (inl e, s') => (Some (inl e), s')
    | (inr _, s') =>
        (Some (inr (all (Sync.results_of dates
                          (Sync.batch respond json_loads self dates
                             (max_concurrent_downloads self) sched
                             (emit_all (banner self dates) s))))), s')
    end.
Proof.
  intros HN Hall. unfold Sync.export, Sync.ThreadPoolExecutor. cbn zeta.
  rewrite (proj2 (Z.leb_gt _ _)) by lia. rewrite Hall, sync_loop_quiet.
  unfold emit_all at 1. rewrite app_nil_r.
  by destruct (st (Sync.batch _ _ _ _ _ _ _)).
Qed.

Lemma async_export_done x dates sched s :
  all_done (tasks (Async.batch respond x dates sched
                     (emit_all (banner (Async.base x) dates) s))) = true ->
  Async.export respond x dates sched s
  = match exec respond report
            (st (Async.batch respond x dates sched
                   (emit_all (banner (Async.base x) dates) s))) with
    | (inl e, s') => (Some (inl e), s')
    | (inr _, s') =>
        (Some (inr (all (Async.results_of
                          (Async.batch respond x dates sched
                             (emit_all (banner (Async.base x) dates) s))))), s')
    end.
Proof.
  intros Hall. unfold Async.export. cbn zeta. by rewrite Hall, async_gather.
Qed.

End ExportOutput.

Section Listing.
Context {W : Type} (respond : W -> call -> answer * W).
Context (json_loads : bytes -> exn + gmap string string).
Implicit Types (self : ApodExporter) (x : Async.Exporter)
  (dates : list string) (sched : list nat) (s : state W).

(** X9.  Once every item has completed, [export] itself makes a single
    call, the listing of the files apod-export-*.jpg.  The files found
    have no influence on the value returned, which is [all(results)]; but
    an error of the listing escapes [export], also when every item has
    succeeded. *)
Theorem listing_decides self x dates sched s :
  ((1 <= max_concurrent_downloads self)%Z ->
   all_done (tasks (Sync.batch respond json_loads self dates
                      (max_concurrent_downloads self) sched
                      (emit_all (banner self dates) s))) = true ->
   since (st (Sync.batch respond json_loads self dates
                (max_concurrent_downloads self) sched
                (emit_all (banner self dates) s)))
         (Sync.export respond json_loads self dates sched s).2
   = [Event Main (Glob "apod-export-*.jpg")
        (respond (world (st (Sync.batch respond json_loads self dates
                               (max_concurrent_downloads self) sched
                               (emit_all (banner self dates) s))))
                 (Glob "apod-export-*.jpg")).1]
   /\ (forall fs,
         (respond (world (st (Sync.batch respond json_loads self dates
                                (max_concurrent_downloads self) sched
                                (emit_all (banner self dates) s))))
                  (Glob "apod-export-*.jpg")).1 = inr (VFiles fs) ->
         (Sync.export respond json_loads self dates sched s).1
         = Some (inr (all (Sync.results_of dates
                             (Sync.batch respond json_loads self dates
                                (max_concurrent_downloads self) sched
                                (emit_all (banner self dates) s))))))
   /\ (forall e,
         (respond (world (st (Sync.batch respond json_loads self dates
                                (max_concurrent_downloads self) sched
                                (emit_all (banner self dates) s))))
                  (Glob "apod-export-*.jpg")).1 = inl e ->
         (Sync.export respond json_loads self dates sched s).1 = Some (inl e)))
  /\ (all_done (tasks (Async.batch respond x dates sched
                         (emit_all (banner (Async.base x) dates) s))) = true ->
      since (st (Async.batch respond x dates sched
                   (emit_all (banner (Async.base x) dates) s)))
            (Async.export respond x dates sched s).2
      = [Event Main (Glob "apod-export-*.jpg")
           (respond (world (st (Async.batch respond x dates sched
                                  (emit_all (banner (Async.base x) dates) s))))
                    (Glob "apod-export-*.jpg")).1]
      /\ (forall fs,
            (respond (world (st (Async.batch respond x dates sched
                                   (emit_all (banner (Async.base x) dates) s))))
                     (Glob "apod-export-*.jpg")).1 = inr (VFiles fs) ->
            (Async.export respond x dates sched s).1
            = Some (inr (all (Async.results_of
                                (Async.batch respond x dates sched
                                   (emit_all (banner (Async.base x) dates) s))))))
      /\ (forall e,
            (respond (world (st (Async.batch respond x dates sched
                                   (emit_all (banner (Async.base x) dates) s))))
                     (Glob "apod-export-*.jpg")).1 = inl e ->
            (Async.export respond x dates sched s).1 = Some (inl e))).
Proof.
  split.
  - intros HN Hall.
    rewrite (sync_export_done respond json_loads self dates sched s HN Hall),
      exec_report.
    cbn zeta. unfold since.
    destruct (respond _ _).1 as [e|[|r|b|m|fs]]; simpl;
      rewrite drop_app_length; split_and!; intros; by simplify_eq.
  - intros Hall.
    rewrite (async_export_done respond x dates sched s Hall), exec_report.
    cbn zeta. unfold since.
    destruct (respond _ _).1 as [e|[|r|b|m|fs]]; simpl;
      rewrite drop_app_length; split_and!; intros; by simplify_eq.
Qed.
End Listing.

(** ** The banner *)

Lemma substring_0_length n s :
  String.length (String.substring 0 n s) = Nat.min n (String.length s).
Proof.
  revert s. induction n as [|n IH]; intros [|a s]; simpl; try done.
  by rewrite IH.
Qed.

Lemma substring_0_prefix n s : exists rest, s = String.substring 0 n s +:+ rest.
Proof.
  revert s. induction n as [|n IH]; intros [|a s]; simpl.
  - by exists "".
  - by exists (String a s).
  - by exists "".
  - destruct (IH s) as [rest Hr]. exists rest.
    change (String a s = String a (String.substring 0 n s +:+ rest)).
    by f_equal.
Qed.

Lemma substring_0_all n s :
  (String.length s <= n)%nat -> String.substring 0 n s = s.
Proof.
  revert s. induction n as [|n IH]; intros [|a s]; simpl; try done; [lia|].
  intros H. f_equal. apply IH. lia.
Qed.

(** X10.  The banner shows the API key cut to its first ten characters:
    what it shows is a prefix of the key, never longer than ten
    characters, and the whole key when the key has at most ten.  The two
    concurrency limits and the dates are shown as they are. *)
Theorem banner_key_prefix self dates pre :
  ConfigApiKey pre ∈ banner self dates ->
  (String.length pre <= 10)%nat
  /\ (exists rest, key (api_key self) = pre +:+ rest)
  /\ ((String.length (key (api_key self)) <= 10)%nat -> pre = key (api_key self))
  /\ ConfigMaxDownloads (max_concurrent_downloads self) ∈ banner self dates
  /\ ConfigMaxExports (max_concurrent_exports self) ∈ banner self dates
  /\ ConfigDates dates ∈ banner self dates.
Proof.
  unfold banner. intros H.
  assert (pre = String.substring 0 10 (key (api_key self))) as ->.
  { repeat (apply elem_of_cons in H as [H|H]; [by simplify_eq|]).
    by apply elem_of_nil in H. }
  split_and!.
  - rewrite substring_0_length. lia.
  - apply substring_0_prefix.
  - intros Hl. by apply substring_0_all.
  - by apply (list_elem_of_lookup_2 _ 5%nat).
  - by apply (list_elem_of_lookup_2 _ 6%nat).
  - by apply (list_elem_of_lookup_2 _ 7%nat).
Qed.

(** ** What a worker prints *)

Ltac respond_cases respond :=
  repeat (simpl;
    match goal with
    | |- context [respond ?w0 ?c] =>
        let E := fresh "E" in
        destruct (respond w0 c) as [[?e|[|?r|?b|?m|?fs]] ?w] eqn:E; simpl
    | |- context [lift ?x] => destruct x eqn:?; simpl
    | |- context [match ?x with Some _ => _ | None => _ end] =>
        destruct x eqn:?; simpl
    | |- context [decide ?P] => destruct (decide P); simpl
    end).

Section WorkerOutput.
Context {W : Type} (respond : W -> call -> answer * W).
Context (json_loads : bytes -> exn + gmap string string).
Implicit Types (self : ApodExporter) (x : Async.Exporter) (s : state W).

(** X11.  A worker called on its own prints exactly two lines and returns
    a boolean, whatever the collaborators answer: first the line that it is
    downloading the date, then one line that tells how it ended.  It
    returns [True] exactly when the second line reports the export of the
    date to the file of its index; otherwise the line names the date and
    what went wrong. *)
Theorem worker_output self x date index s :
  (exists l b,
     (exec respond (Sync.download_apod json_loads self date index) s).1 = inr b
     /\ stdout (exec respond (Sync.download_apod json_loads self date index) s).2
        = stdout s ++ [Downloading date; l]
     /\ (b = true -> exists n, l = Exported date (output_file_of index) n)
     /\ (b = false ->
         l = NoImageUrl date \/ exists e, l = ErrorProcessing date e))
  /\ (exists l b,
        (exec respond (Async.download_apod x date index) s).1 = inr b
        /\ stdout (exec respond (Async.download_apod x date index) s).2
           = stdout s ++ [Downloading date; l]
        /\ (b = true -> exists n, l = Exported date (output_file_of index) n)
        /\ (b = false ->
            l = NoImageUrl date
            \/ (exists e, l = ErrorProcessing date e)
            \/ (exists st, st <> 200%Z /\
                  (l = MetadataHttpFailure date st \/ l = ImageHttpFailure date st)))).
Proof.
  split.
  - unfold Sync.download_apod. simpl. unfold perform.
    respond_cases respond.
    all: eexists; eexists; rewrite <- app_assoc; simpl;
      (split_and!; [reflexivity|reflexivity|intros; simplify_eq; eauto..]).
  - unfold Async.download_apod. simpl. unfold perform.
    respond_cases respond.
    all: eexists; eexists; rewrite <- app_assoc; simpl;
      (split_and!; [reflexivity|reflexivity|intros; simplify_eq; eauto 7..]).
Qed.
End WorkerOutput.

(** ** The limit the exporters enforce *)

Section Limit.
Context {W : Type} (respond : W -> call -> answer * W).
Context (json_loads : bytes -> exn + gmap string string).
Implicit Types (self : ApodExporter) (x : Async.Exporter)
  (dates : list string) (sched : list nat) (s : state W).

Lemma step_waits {G : Type} (ops : gate_ops G) (c : config W G) i p :
  tasks c !! i = Some (Queued p) -> can_enter ops (gate c) = false ->
  step respond ops c i = c.
Proof. intros Hi Hg. unfold step. by rewrite Hi, Hg. Qed.

(** X12.  The limit both exporters enforce is [max_concurrent_downloads].
    The thread-pool exporter runs its batch on a pool of that many workers;
    the constructor of the asyncio exporter, when it succeeds, stores its
    arguments as they are and sets the semaphore to that value.  At every
    point of every run at most that many items are inside their worker
    body, and while that many are, a queued item that is given a turn
    stays queued and nothing changes. *)
Theorem limit_is_max_concurrent_downloads self key mcd mce x dates sched s :
  ((Z.of_nat (in_flight (tasks (Sync.batch respond json_loads self dates
                                  (max_concurrent_downloads self) sched s)))
    <= Z.max 0 (max_concurrent_downloads self))%Z
   /\ (forall i p,
         tasks (Sync.batch respond json_loads self dates
                  (max_concurrent_downloads self) sched s) !! i
           = Some (Queued p) ->
         (max_concurrent_downloads self
          <= Z.of_nat (in_flight (tasks (Sync.batch respond json_loads self dates
                                           (max_concurrent_downloads self)
                                           sched s))))%Z ->
         step respond (Sync.pool (max_concurrent_downloads self))
           (Sync.batch respond json_loads self dates
              (max_concurrent_downloads self) sched s) i
         = Sync.batch respond json_loads self dates
             (max_concurrent_downloads self) sched s))
  /\ (Async.new key mcd mce = inr x ->
      Async.semaphore x = mcd
      /\ Async.base x = {| api_key := key;
                           max_concurrent_downloads := mcd;
                           max_concurrent_exports := mce |}
      /\ (Z.of_nat (in_flight (tasks (Async.batch respond x dates sched s)))
          <= mcd)%Z
      /\ (forall i p,
            tasks (Async.batch respond x dates sched s) !! i = Some (Queued p) ->
            Z.of_nat (in_flight (tasks (Async.batch respond x dates sched s)))
            = mcd ->
            step respond Async.sem (Async.batch respond x dates sched s) i
            = Async.batch respond x dates sched s)).
Proof.
  split.
  - destruct (pool_bound respond (max_concurrent_downloads self)
                (Sync.futures json_loads self dates) s sched) as [Hg Hb].
    split; [done|]. intros i p Hi Hfull. apply (step_waits _ _ _ p Hi).
    unfold Sync.batch. rewrite Hg. simpl. apply Z.ltb_ge. done.
  - intros Hx. unfold Async.new, Async.Semaphore in Hx.
    destruct (mcd <? 0)%Z eqn:Hneg; [done|]. apply Z.ltb_ge in Hneg.
    injection Hx as <-. simpl.
    destruct (sem_bound respond mcd
                (Async.coroutines
                   {| Async.base := {| api_key := key;
                                       max_concurrent_downloads := mcd;
                                       max_concurrent_exports := mce |};
                      Async.semaphore := mcd |} dates) s sched) as [Hg Hb].
    split_and!; [done|done| |].
    + unfold Async.batch. simpl. destruct Hb as [->|Hb]; simpl; lia.
    + intros i p Hi Hfull. apply (step_waits _ _ _ p Hi).
      unfold Async.batch in *. simpl in *. apply Z.ltb_ge. lia.
Qed.
End Limit.

(** ** The first request of an item *)

Section Requests.
Context {W : Type} (respond : W -> call -> answer * W).
Context (json_loads : bytes -> exn + gmap string string).
Implicit Types (self : ApodExporter) (x : Async.Exporter)
  (dates : list string) (sched : list nat) (s : state W).

(** X13.  Two items of a batch start with the same request exactly when
    their dates are equal: the first call of an item is the request of the
    metadata of its own date, and different dates have different metadata
    addresses. *)
Theorem requests_by_date self x dates N sched s i j di dj :
  dates !! i = Some di -> dates !! j = Some dj ->
  (forall c a c' a',
     item_calls s (Sync.batch respond json_loads self dates N sched s) i !! 0%nat
       = Some (c, a) ->
     item_calls s (Sync.batch respond json_loads self dates N sched s) j !! 0%nat
       = Some (c', a') ->
     c = Urlopen (metadata_url_of self di) 30 /\ (c = c' <-> di = dj))
  /\ (forall c a c' a',
        item_calls s (Async.batch respond x dates sched s) i !! 0%nat
          = Some (c, a) ->
        item_calls s (Async.batch respond x dates sched s) j !! 0%nat
          = Some (c', a') ->
        c = SessionGet (metadata_url_of (Async.base x) di)
        /\ (c = c' <-> di = dj)).
Proof.
  intros Hi Hj. split; intros c a c' a' Hc Hc'.
  - destruct (sync_item_reaches respond json_loads self dates N sched s i di Hi)
      as (q & Hq & _).
    destruct (sync_item_reaches respond json_loads self dates N sched s j dj Hj)
      as (q' & Hq' & _).
    apply sync_paths in Hq as (H & _). apply sync_paths in Hq' as (H' & _).
    specialize (H _ _ _ Hc). specialize (H' _ _ _ Hc'). simpl in H, H'.
    subst c c'. split; [done|]. split.
    + intros Heq. apply (metadata_url_of_inj self). congruence.
    + by intros ->.
  - destruct (async_item_reaches respond x dates sched s i di Hi)
      as (q & Hq & _).
    destruct (async_item_reaches respond x dates sched s j dj Hj)
      as (q' & Hq' & _).
    apply async_paths in Hq as (H & _). apply async_paths in Hq' as (H' & _).
    specialize (H _ _ _ Hc). specialize (H' _ _ _ Hc'). simpl in H, H'.
    subst c c'. split; [done|]. split.
    + intros Heq. apply (metadata_url_of_inj (Async.base x)). congruence.
    + by intros ->.
Qed.
End Requests.

(** ** One item after the other *)

Lemma sequential_length n start k :
  length (sequential n start k) = ((n + 2) * k)%nat.
Proof.
  unfold sequential. revert start. induction k as [|k IH]; intros start; csimpl.
  - lia.
  - rewrite length_app, length_replicate, IH. lia.
Qed.

Section Sequential.
Context {W : Type} (respond : W -> call -> answer * W).
Context (json_loads : bytes -> exn + gmap string string).
Implicit Types (self : ApodExporter) (x : Async.Exporter)
  (dates : list string) (s : state W).

(** X14.  A batch can always be run one item after the other.  With a
    limit of at least 1, giving each item in turn nine steps (one to enter
    its worker body and eight inside it) completes every item, whatever the
    collaborators answer: a batch of K dates is over after 9K steps. *)
Theorem sequential_run self x dates N s :
  length (sequential 7 0 (length dates)) = (9 * length dates)%nat
  /\ ((1 <= N)%Z ->
      all_done (tasks (Sync.batch respond json_loads self dates N
                         (sequential 7 0 (length dates)) s)) = true)
  /\ ((1 <= Async.semaphore x)%Z ->
      all_done (tasks (Async.batch respond x dates
                         (sequential 7 0 (length dates)) s)) = true).
Proof.
  split_and!.
  - by rewrite sequential_length.
  - intros HN. unfold Sync.batch.
    rewrite <- (futures_length json_loads self dates).
    apply (run_complete_schedule respond (Sync.pool N) _ 0%nat s 7).
    + apply futures_spec. intros. apply sync_halts.
    + simpl. apply Z.ltb_lt. lia.
    + done.
  - intros HN. unfold Async.batch.
    rewrite <- (coroutines_length x dates).
    apply (run_complete_schedule respond Async.sem _ _ s 7).
    + apply coroutines_spec. intros. apply async_halts.
    + simpl. apply Z.ltb_lt. lia.
    + intros g. simpl. lia.
Qed.
End Sequential.

(** ** The further properties at work on the small world *)

Lemma permits_conserved_witness :
  all_done (tasks (demo_async_run (round_robin 3 9))) = true /\
  gate (demo_async_run (round_robin 3 9)) = Async.semaphore demo_async.
Proof.
  destruct (permits_conserved (demo_respond "2020-03-02") demo_json_loads
              demo_exporter demo_async demo_dates 3 (round_robin 3 9)
              demo_state) as [_ [_ Ha]].
  assert (H1 : all_done (tasks (demo_async_run (round_robin 3 9))) = true)
    by (vm_compute; reflexivity).
  split; [exact H1 | exact (Ha H1)].
Defined.

Lemma no_exception_from_items_witness :
  tasks (demo_sync_run (round_robin 3 9)) !! 1%nat = Some (Done (inr false)) /\
  (exists b, @inr exn bool false = inr b).
Proof.
  destruct (no_exception_from_items (demo_respond "2020-03-02") demo_json_loads
              demo_exporter demo_async demo_dates 3 (round_robin 3 9)
              demo_state) as (_ & Hs & _).
  assert (H1 : tasks (demo_sync_run (round_robin 3 9)) !! 1%nat
               = Some (Done (inr false))) by (vm_compute; reflexivity).
  split; [exact H1 | exact (Hs _ _ H1)].
Defined.

Lemma main_default_date_witness :
  (length ["apod_exporter_sync.py"] <= 1)%nat /\
  Sync.main (demo_respond "") demo_json_loads ["apod_exporter_sync.py"] None
    (round_robin 1 9) demo_state
  = Sync.main (demo_respond "") demo_json_loads
      ["apod_exporter_sync.py"; "2020-03-01"] None (round_robin 1 9) demo_state.
Proof.
  destruct (main_default_date (demo_respond "") demo_json_loads
              "apod_exporter_sync.py" "2020-03-01" []
              ["apod_exporter_sync.py"] None (round_robin 1 9) demo_state)
    as (_ & _ & H).
  assert (H1 : (length ["apod_exporter_sync.py"] <= 1)%nat) by (simpl; lia).
  split; [exact H1 | exact (proj1 (H H1))].
Defined.

Lemma main_terminates_witness :
  (Sync.main (demo_respond "") demo_json_loads ["apod_exporter_sync.py"] None
     (round_robin 1 9) demo_state).1 = Some 0%Z /\
  (0 = 0 \/ 0 = 1)%Z.
Proof.
  destruct (main_terminates (demo_respond "") demo_json_loads
              ["apod_exporter_sync.py"] None demo_state) as (_ & _ & H & _).
  assert (H1 : (Sync.main (demo_respond "") demo_json_loads
                  ["apod_exporter_sync.py"] None (round_robin 1 9)
                  demo_state).1 = Some 0%Z) by (vm_compute; reflexivity).
  split; [exact H1 | exact (H _ _ H1)].
Defined.

Lemma call_budget_witness :
  demo_dates !! 0%nat = Some "2020-03-01" /\
  (length (requests_of (item_calls demo_state
                          (demo_sync_run (round_robin 3 9)) 0)) <= 2)%nat.
Proof.
  destruct (call_budget (demo_respond "2020-03-02") demo_json_loads
              demo_exporter demo_async demo_dates 3 (round_robin 3 9)
              demo_state) as [(_ & _ & H & _) _].
  split; [reflexivity | exact (H 0%nat "2020-03-01" eq_refl)].
Defined.

Lemma files_written_witness :
  demo_dates !! 0%nat = Some "2020-03-01" /\
  tasks (demo_sync_run (round_robin 3 9)) !! 0%nat = Some (Done (inr true)) /\
  files_of (item_calls demo_state (demo_sync_run (round_robin 3 9)) 0)
  = [output_file_of 0].
Proof.
  destruct (files_written (demo_respond "2020-03-02") demo_json_loads
              demo_exporter demo_async demo_dates 3 (round_robin 3 9)
              demo_state 0 "2020-03-01" eq_refl) as ((_ & H) & _).
  assert (H1 : tasks (demo_sync_run (round_robin 3 9)) !! 0%nat
               = Some (Done (inr true))) by (vm_compute; reflexivity).
  split_and!; [reflexivity | exact H1 | exact (proj1 (H _ H1) eq_refl)].
Defined.

Lemma async_http_status_witness :
  demo_dates !! 1%nat = Some "2020-03-02" /\
  item_calls demo_state
    (Async.batch (demo_respond_404 "2020-03-02") demo_async demo_dates
       (round_robin 3 9) demo_state) 1 !! 0%nat
  = Some (SessionGet (metadata_url_of demo_exporter "2020-03-02"),
          inr (VResponse (Response 404 0))) /\
  status (Response 404 0) <> 200%Z /\
  length (item_calls demo_state
            (Async.batch (demo_respond_404 "2020-03-02") demo_async demo_dates
               (round_robin 3 9) demo_state) 1) = 1%nat.
Proof.
  destruct (async_http_status (demo_respond_404 "2020-03-02") demo_async
              demo_dates (round_robin 3 9) demo_state 1 "2020-03-02" eq_refl)
    as [H _].
  assert (H1 : item_calls demo_state
                 (Async.batch (demo_respond_404 "2020-03-02") demo_async
                    demo_dates (round_robin 3 9) demo_state) 1 !! 0%nat
               = Some (SessionGet (metadata_url_of demo_exporter "2020-03-02"),
                       inr (VResponse (Response 404 0))))
    by (vm_compute; reflexivity).
  assert (H2 : status (Response 404 0) <> 200%Z) by (simpl; lia).
  split_and!; [reflexivity | exact H1 | exact H2 | exact (proj1 (H _ _ H1 H2))].
Defined.


Lemma listing_decides_witness :
  (1 <= max_concurrent_downloads demo_exporter)%Z /\
  all_done (tasks (Sync.batch (demo_respond "") demo_json_loads demo_exporter
                     demo_dates (max_concurrent_downloads demo_exporter)
                     (round_robin 3 9)
                     (emit_all (banner demo_exporter demo_dates) demo_state)))
  = true /\
  (exists fs,
     (demo_respond ""
        (world (st (Sync.batch (demo_respond "") demo_json_loads demo_exporter
                      demo_dates (max_concurrent_downloads demo_exporter)
                      (round_robin 3 9)
                      (emit_all (banner demo_exporter demo_dates) demo_state))))
        (Glob "apod-export-*.jpg")).1 = inr (VFiles fs) /\
     (Sync.export (demo_respond "") demo_json_loads demo_exporter demo_dates
        (round_robin 3 9) demo_state).1
     = Some (inr (all (Sync.results_of demo_dates
                         (Sync.batch (demo_respond "") demo_json_loads
                            demo_exporter demo_dates
                            (max_concurrent_downloads demo_exporter)
                            (round_robin 3 9)
                            (emit_all (banner demo_exporter demo_dates)
                               demo_state)))))).
Proof.
  destruct (listing_decides (demo_respond "") demo_json_loads demo_exporter
              demo_async demo_dates (round_robin 3 9) demo_state) as [H _].
  assert (H1 : (1 <= max_concurrent_downloads demo_exporter)%Z) by (simpl; lia).
  assert (H2 : all_done (tasks (Sync.batch (demo_respond "") demo_json_loads
                 demo_exporter demo_dates (max_concurrent_downloads demo_exporter)
                 (round_robin 3 9)
                 (emit_all (banner demo_exporter demo_dates) demo_state)))
               = true) by (vm_compute; reflexivity).
  assert (H3 : exists fs,
             (demo_respond ""
                (world (st (Sync.batch (demo_respond "") demo_json_loads
                              demo_exporter demo_dates
                              (max_concurrent_downloads demo_exporter)
                              (round_robin 3 9)
                              (emit_all (banner demo_exporter demo_dates)
                                 demo_state))))
                (Glob "apod-export-*.jpg")).1 = inr (VFiles fs))
    by (eexists; vm_compute; reflexivity).
  destruct H3 as [fs Hfs].
  split_and!; [exact H1 | exact H2 |].
  exists fs. split; [exact Hfs | exact (proj1 (proj2 (H H1 H2)) fs Hfs)].
Defined.

Lemma banner_key_prefix_witness :
  ConfigApiKey "abcdefghij" ∈ banner demo_long_key demo_dates /\
  (String.length "abcdefghij" <= 10)%nat /\
  (exists rest, key (api_key demo_long_key) = "abcdefghij" +:+ rest).
Proof.
  assert (H1 : ConfigApiKey "abcdefghij" ∈ banner demo_long_key demo_dates).
  { apply (list_elem_of_lookup_2 _ 4%nat). reflexivity. }
  destruct (banner_key_prefix demo_long_key demo_dates "abcdefghij" H1)
    as (Hl & Hp & _).
  split_and!; [exact H1 | exact Hl | exact Hp].
Defined.

Lemma limit_is_max_concurrent_downloads_witness :
  Async.new {| key := "DEMO_KEY" |} 3 3 = inr demo_async /\
  (Z.of_nat (in_flight (tasks (demo_async_run (round_robin 3 2)))) <= 3)%Z.
Proof.
  destruct (limit_is_max_concurrent_downloads (demo_respond "2020-03-02")
              demo_json_loads demo_exporter {| key := "DEMO_KEY" |} 3 3
              demo_async demo_dates (round_robin 3 2) demo_state) as [_ H].
  assert (H1 : Async.new {| key := "DEMO_KEY" |} 3 3 = inr demo_async)
    by reflexivity.
  split; [exact H1 | exact (proj1 (proj2 (proj2 (H H1))))].
Defined.

Lemma worker_output_witness :
  (exec (demo_respond "") (Sync.download_apod demo_json_loads demo_exporter
                             "2020-03-01" 0) demo_state).1 = inr true /\
  (exists n,
     stdout (exec (demo_respond "")
               (Sync.download_apod demo_json_loads demo_exporter
                  "2020-03-01" 0) demo_state).2
     = stdout demo_state
       ++ [Downloading "2020-03-01";
           Exported "2020-03-01" (output_file_of 0) n]).
Proof.
  destruct (worker_output (demo_respond "") demo_json_loads demo_exporter
              demo_async "2020-03-01" 0 demo_state)
    as [(l & b & Hr & Ho & Ht & _) _].
  assert (H1 : (exec (demo_respond "")
                  (Sync.download_apod demo_json_loads demo_exporter
                     "2020-03-01" 0) demo_state).1 = inr true)
    by (vm_compute; reflexivity).
  assert (Hb : b = true).
  { apply (f_equal (fun r => match r with inr b' => b' | inl _ => b end))
      in Hr. rewrite H1 in Hr. simpl in Hr. by symmetry. }
  destruct (Ht Hb) as [n Hl].
  split; [exact H1|]. exists n. by rewrite Ho, Hl.
Defined.

Lemma requests_by_date_witness :
  demo_dates !! 0%nat = Some "2020-03-01" /\
  demo_dates !! 2%nat = Some "2020-03-03" /\
  item_calls demo_state (demo_sync_run (round_robin 3 9)) 0 !! 0%nat
  = Some (Urlopen (metadata_url_of demo_exporter "2020-03-01") 30,
          inr (VResponse (Response 200 0))) /\
  item_calls demo_state (demo_sync_run (round_robin 3 9)) 2 !! 0%nat
  = Some (Urlopen (metadata_url_of demo_exporter "2020-03-03") 30,
          inr (VResponse (Response 200 0))) /\
  (Urlopen (metadata_url_of demo_exporter "2020-03-01") 30
   = Urlopen (metadata_url_of demo_exporter "2020-03-03") 30
   <-> "2020-03-01" = "2020-03-03").
Proof.
  destruct (requests_by_date (demo_respond "2020-03-02") demo_json_loads
              demo_exporter demo_async demo_dates 3 (round_robin 3 9)
              demo_state 0 2 "2020-03-01" "2020-03-03" eq_refl eq_refl)
    as [H _].
  assert (H1 : item_calls demo_state (demo_sync_run (round_robin 3 9)) 0 !! 0%nat
               = Some (Urlopen (metadata_url_of demo_exporter "2020-03-01") 30,
                       inr (VResponse (Response 200 0))))
    by (vm_compute; reflexivity).
  assert (H2 : item_calls demo_state (demo_sync_run (round_robin 3 9)) 2 !! 0%nat
               = Some (Urlopen (metadata_url_of demo_exporter "2020-03-03") 30,
                       inr (VResponse (Response 200 0))))
    by (vm_compute; reflexivity).
  split_and!; [reflexivity | reflexivity | exact H1 | exact H2
              | exact (proj2 (H _ _ _ _ H1 H2))].
Defined.

Lemma sequential_run_witness :
  (1 <= 1)%Z /\
  all_done (tasks (Sync.batch (demo_respond "2020-03-02") demo_json_loads
                     demo_exporter demo_dates 1
                     (sequential 7 0 (length demo_dates)) demo_state)) = true.
Proof.
  destruct (sequential_run (demo_respond "2020-03-02") demo_json_loads
              demo_exporter demo_async demo_dates 1 demo_state) as (_ & H & _).
  assert (H1 : (1 <= 1)%Z) by lia.
  split; [exact H1 | exact (H H1)].
Defined.
